(** * ros2-performance: statistics trackers, performance nodes, node factory

    A shallow embedding of

    - [performance_test/performance_node_base.hpp] (class [PerformanceNodeBase]),
    - [performance_test_factory/factory.hpp] (class [TemplateFactory]),
    - [FastDDS-docker/MultiProcess_SierraNevada/src/mandalay.cpp] (class [Mandalay]),

    together with the properties of the design document that concern them.

    Conventions.  Time stamps ([rclcpp::Time], [std::chrono] durations) are
    integers ([Z]); floating-point data is carried by primitive (binary64)
    floats, a C++ [float] being the binary64 value equal to it, and where the
    source computes in single precision the rounding to binary32 is written
    out; [std::map<std::string, V>] is a key-sorted association list, so that
    iteration order is the order of the C++ container; a C++ exception is an
    explicit [Thrown] outcome and an integer division by zero an explicit
    [Undefined] one; clock readings and the outcome of the service probe are
    arguments of the functions that consult them. *)

From Stdlib Require Import ZArith NArith List String Ascii Bool Lia.
From Stdlib Require Import Lists.Finite Sorting.Sorted Classes.RelationClasses.
From Stdlib Require Import Structures.OrdersEx.
From Stdlib Require Import Numbers.DecimalString Numbers.DecimalZ Numbers.DecimalN.
From Stdlib Require Import Floats.PrimFloat.
From Stdlib Require Floats.SpecFloat Floats.FloatOps.
Import ListNotations.

Set Implicit Arguments.
Local Open Scope string_scope.
Local Open Scope list_scope.
Local Open Scope N_scope.

(* ================================================================== *)
(** * Basic data *)

(** [rclcpp::Time] and clock readings, in nanoseconds. *)
Definition Time := Z.

(** Conversions of integers to [double]: the nearest binary64 value, ties
    to even (exact below 2^53). *)
Definition float_of_Z (z : Z) : float :=
  FloatOps.SF2Prim (SpecFloat.binary_normalize 53 1024 z 0 false).

Definition float_of_N (n : N) : float := float_of_Z (Z.of_N n).

(** The conversion of a [double] to a C++ [float]: the nearest binary32
    value, ties to even, infinite beyond the binary32 range. *)
Definition to_float32 (x : float) : float :=
  match FloatOps.Prim2SF x with
  | SpecFloat.S754_finite s m e =>
      FloatOps.SF2Prim
        (SpecFloat.binary_normalize 24 128 (SpecFloat.cond_Zopp s (Zpos m)) e s)
  | _ => x
  end.

(** The conversion of an integer to a C++ [float], in the binary32 format
    itself. *)
Definition float32_of_Z (z : Z) : SpecFloat.spec_float :=
  SpecFloat.binary_normalize 24 128 z 0 false.

(** The division of two C++ [float]s. *)
Definition float32_div (x y : SpecFloat.spec_float) : SpecFloat.spec_float :=
  SpecFloat.SFdiv 24 128 x y.

(** The integer part of a C++ [float], as the conversion to an integer type
    takes it. *)
Definition float32_truncate (x : SpecFloat.spec_float) : Z :=
  match x with
  | SpecFloat.S754_finite s m e =>
      SpecFloat.cond_Zopp s
        (if (0 <=? e)%Z then Zpos m * 2 ^ e else Zpos m / 2 ^ (- e))%Z
  | _ => 0%Z
  end.

(** The conversion of a [float] to [unsigned long] (64 bits).  C++ defines
    it only when the integer part fits; a negative integer part is taken
    modulo [2^64], as the 64-bit signed conversion of x86-64 leaves it. *)
Definition unsigned_long_of_float32 (x : SpecFloat.spec_float) : Z :=
  (float32_truncate x mod 2 ^ 64)%Z.

(** Decimal rendering, as [operator<<] and [std::to_string] print integers. *)
Definition string_of_Z (z : Z) : string := NilZero.string_of_int (Z.to_int z).
Definition string_of_N (n : N) : string := string_of_Z (Z.of_N n).

(** The header carried by every message, request and response
    ([performance_test_msgs::msg::PerformanceHeader]).  Its fields are the
    ones written by [create_msg_header]; the message definition is not among
    the sources, and the unsigned fields are natural numbers here.  The
    [tracking_number] field holds what [_publish] and [_request] take from
    their counters of type [Tracker::TrackingNumber], which wrap as that
    type does. *)
Module Header.
Record t : Type := mk {
  size : N;
  frequency : float;
  tracking_number : N;
  stamp : Time
}.
End Header.

(* ================================================================== *)
(** * Events logger *)

Module EventsLogger.

(** [EventsLogger::EventCode] of [events_logger.hpp].  [service_unavailable]
    is the code written by [PerformanceNodeBase::_request]; the loss and
    out-of-order codes are the anomaly notifications of the design document
    (section 7), a loss carrying the size of the gap it reports. *)
Inductive EventCode : Type :=
| service_unavailable
| lost_messages (gap : N)
| out_of_order.

Record Event : Type := mkEvent {
  caller_name : string;
  code : EventCode;
  description : string
}.

(** The sink: the events written so far, oldest first. *)
Definition t := list Event.

Definition write_event (ev : Event) (log : t) : t := log ++ [ev].

Definition is_loss (ev : Event) : bool :=
  match code ev with lost_messages _ => true | _ => false end.

End EventsLogger.

(* ================================================================== *)
(** * Tracker *)

Module Tracker.

(** Modelled from the spec: [Tracker::TrackingNumber], declared in
    [tracker.hpp], which is not among the sources.  It is the type of the
    counters that number outgoing messages and requests; their values are
    written to the [tracking_number] field of the header, which the design
    document types as "unsigned 32/64-bit", the node prints with [%d] and
    [Mandalay] counts in [uint32_t].  A counter that issues numbers is
    therefore an unsigned 32-bit integer, a natural number below [2^32]
    advanced by [increment]; the receiving side of the accumulator follows
    the design document, which gives its counters no width. *)
Definition TrackingNumber := N.

(** Modelled from the spec: [tracking_number++] on a counter of type
    [Tracker::TrackingNumber], which wraps from [2^32 - 1] to 0. *)
Definition increment (c : TrackingNumber) : TrackingNumber := (c + 1) mod 2 ^ 32.

(** [Tracker::TrackingOptions]: passed through to the constructor and never
    inspected by the code embedded here. *)
Inductive TrackingOptions : Type :=
| DefaultOptions
| CustomOptions (id : N).

(** Modelled from the spec: the accumulator state of [tracker.hpp], which is
    not among the sources.  The fields are those of the design document's
    data model (section 3), preceded by the three constructor arguments seen
    at every [Tracker(node_name, topic_name, options)] call.  The document
    types the counters as [unsigned] without a width; they are natural
    numbers here. *)
Record t : Type := mk {
  node_name : string;
  topic_srv_name : string;
  options : TrackingOptions;
  count : N;
  mean : float;
  variance_accumulator : float;
  min : float;
  max : float;
  last_value : float;
  expected_next_tracking_number : TrackingNumber;
  lost_count : N;
  frequency : float;
  size : N
}.

(** Modelled from the spec: a tracker at endpoint-construction time.  No
    sample has been seen and the tracking-number counter starts at 0
    (tracking numbers are issued "starting at 0"). *)
Definition new (node topic : string) (opts : TrackingOptions) : t :=
  {| node_name := node; topic_srv_name := topic; options := opts;
     count := 0; mean := 0%float; variance_accumulator := 0%float;
     min := 0%float; max := 0%float; last_value := 0%float;
     expected_next_tracking_number := 0; lost_count := 0;
     frequency := 0%float; size := 0 |}.

Definition with_tracking (e : TrackingNumber) (l : N) (tr : t) : t :=
  {| node_name := node_name tr; topic_srv_name := topic_srv_name tr;
     options := options tr;
     count := count tr; mean := mean tr;
     variance_accumulator := variance_accumulator tr;
     min := min tr; max := max tr; last_value := last_value tr;
     expected_next_tracking_number := e; lost_count := l;
     frequency := frequency tr; size := size tr |}.

(** Modelled from the spec: [tracker.set_frequency(f)] and
    [tracker.set_size(s)] of [tracker.hpp], writing the [frequency] and [size]
    of the accumulator state. *)
Definition set_frequency (f : float) (tr : t) : t :=
  {| node_name := node_name tr; topic_srv_name := topic_srv_name tr;
     options := options tr;
     count := count tr; mean := mean tr;
     variance_accumulator := variance_accumulator tr;
     min := min tr; max := max tr; last_value := last_value tr;
     expected_next_tracking_number := expected_next_tracking_number tr;
     lost_count := lost_count tr;
     frequency := f; size := size tr |}.

Definition set_size (s : N) (tr : t) : t :=
  {| node_name := node_name tr; topic_srv_name := topic_srv_name tr;
     options := options tr;
     count := count tr; mean := mean tr;
     variance_accumulator := variance_accumulator tr;
     min := min tr; max := max tr; last_value := last_value tr;
     expected_next_tracking_number := expected_next_tracking_number tr;
     lost_count := lost_count tr;
     frequency := frequency tr; size := s |}.

(** Modelled from the spec: [tracker.stat().n()] of [tracker.hpp], the
    [count] of samples recorded so far. *)
Definition stat_n (tr : t) : N := count tr.

(** Modelled from the spec: [get_and_increment_tracking_number] of the design
    document, called [get_and_update_tracking_number] by [_publish]: "returns
    the current counter then advances it by one", in the arithmetic of
    [Tracker::TrackingNumber].  The only counter of the accumulator state is
    [expected_next_tracking_number]. *)
Definition get_and_update_tracking_number (tr : t) : TrackingNumber * t :=
  (expected_next_tracking_number tr,
   with_tracking (increment (expected_next_tracking_number tr)) (lost_count tr) tr).

(** Modelled from the spec: [record_latency] of the design document, called
    [add_sample] by [_publish]: count, running mean and variance accumulator
    by the single-pass update, then minimum and maximum. *)
Definition add_sample (x : float) (tr : t) : t :=
  let n' := count tr + 1 in
  let delta := (x - mean tr)%float in
  let mean' := (mean tr + delta / float_of_N n')%float in
  let m2' := (variance_accumulator tr + delta * (x - mean'))%float in
  let first := count tr =? 0 in
  {| node_name := node_name tr; topic_srv_name := topic_srv_name tr;
     options := options tr;
     count := n'; mean := mean'; variance_accumulator := m2';
     min := if first then x else if (x <? min tr)%float then x else min tr;
     max := if first then x else if (max tr <? x)%float then x else max tr;
     last_value := x;
     expected_next_tracking_number := expected_next_tracking_number tr;
     lost_count := lost_count tr;
     frequency := frequency tr; size := size tr |}.

(** Modelled from the spec: the two anomaly notifications of [scan], "a loss
    event {endpoint_name, gap, description}" and the out-of-order event.  The
    design document does not fix the text of the descriptions. *)
Definition loss_event (tr : t) (gap : N) : EventsLogger.Event :=
  EventsLogger.mkEvent (topic_srv_name tr) (EventsLogger.lost_messages gap)
    ("lost " ++ string_of_N gap ++ " messages")%string.

Definition out_of_order_event (tr : t) (h : Header.t) : EventsLogger.Event :=
  EventsLogger.mkEvent (topic_srv_name tr) EventsLogger.out_of_order
    ("unexpected tracking number " ++ string_of_N (Header.tracking_number h))%string.

(** Modelled from the spec: [scan(header, receive_time, sink)] of [tracker.hpp]
    (section 4.1 of the design document; the function body is not among the
    sources).  The gap detector runs first, then frequency and size are taken
    from the header and the latency is recorded. *)
Definition scan (h : Header.t) (receive_time : Time)
    (sink : EventsLogger.t) (tr : t) : t * EventsLogger.t :=
  let latency := (receive_time - Header.stamp h)%Z in
  let tn := Header.tracking_number h in
  let expected := expected_next_tracking_number tr in
  let '(tr1, sink1) :=
    if count tr =? 0 then
      (with_tracking (tn + 1) (lost_count tr) tr, sink)
    else if expected <=? tn then
      let gap := tn - expected in
      if 0 <? gap then
        (with_tracking (tn + 1) (lost_count tr + gap) tr,
         EventsLogger.write_event (loss_event tr gap) sink)
      else
        (with_tracking (tn + 1) (lost_count tr) tr, sink)
    else
      (tr, EventsLogger.write_event (out_of_order_event tr h) sink) in
  (add_sample (float_of_Z latency)
     (set_size (Header.size h) (set_frequency (Header.frequency h) tr1)),
   sink1).

(** A stream of samples, scanned in arrival order. *)
Fixpoint scan_all (samples : list (Header.t * Time))
    (sink : EventsLogger.t) (tr : t) : t * EventsLogger.t :=
  match samples with
  | [] => (tr, sink)
  | (h, now) :: rest =>
      let '(tr', sink') := scan h now sink tr in
      scan_all rest sink' tr'
  end.

(** The tracking numbers of a stream are [first], [first + 1], ... *)
Definition consecutive_from (first : N) (samples : list (Header.t * Time)) : Prop :=
  map (fun s => Header.tracking_number (fst s)) samples
  = map (fun i => first + N.of_nat i) (seq 0 (List.length samples)).

(** What every [scan] does besides detecting gaps: one more sample, same
    endpoint. *)
Record scan_effect (tr tr' : t) : Prop := mkEffect {
  effect_count : count tr' = count tr + 1;
  effect_name : topic_srv_name tr' = topic_srv_name tr;
  effect_node : node_name tr' = node_name tr
}.

(** A tracker that has seen no sample still has its counter at the initial
    0. *)
Definition counter_starts_at_zero (tr : t) : Prop :=
  count tr = 0 -> expected_next_tracking_number tr = 0.

End Tracker.

(* ================================================================== *)
(** * [std::map<std::string, V>] *)

Module StdMap.
Section WithValues.
Variable V : Type.

(** The elements in iteration order: increasing keys, as [std::less]
    orders [std::string]s. *)
Definition t := list (string * V).

Definition empty : t := [].

(** [m.insert({k, v})]: a key that is already present keeps its element. *)
Fixpoint insert (k : string) (v : V) (m : t) : t :=
  match m with
  | [] => [(k, v)]
  | (k', v') :: m' =>
      match String_as_OT.compare k k' with
      | Lt => (k, v) :: m
      | Eq => m
      | Gt => (k', v') :: insert k v m'
      end
  end.

(** [m.at(k)]: [None] stands for [std::out_of_range]. *)
Fixpoint at_ (k : string) (m : t) : option V :=
  match m with
  | [] => None
  | (k', v') :: m' => if String.eqb k k' then Some v' else at_ k m'
  end.

(** Assignment through the reference returned by [m.at(k)]. *)
Fixpoint assign (k : string) (v : V) (m : t) : t :=
  match m with
  | [] => []
  | (k', v') :: m' =>
      if String.eqb k k' then (k', v) :: m' else (k', v') :: assign k v m'
  end.

Definition keys (m : t) : list string := map fst m.

(** The invariant of the container: strictly increasing keys. *)
Definition wf (m : t) : Prop := StronglySorted String_as_OT.lt (keys m).
End WithValues.
End StdMap.

(* ================================================================== *)
(** * Messages *)

(** [msg_pass_by_t]. *)
Inductive msg_pass_by_t : Type :=
| PASS_BY_UNIQUE_PTR
| PASS_BY_SHARED_PTR.

(** [rmw_qos_profile_t], a structure of the middleware, opaque to this code
    apart from the predefined [rmw_qos_profile_default]. *)
Inductive rmw_qos_profile_t : Type :=
| rmw_qos_profile_default
| rmw_qos_profile_custom (id : N).

(** The type of the [data] member of a message type [Msg]: the template
    overloads of [resize_msg] and [set_msg_size] select on whether it is
    [std::vector<uint8_t>]; any other type has a fixed [sizeof]. *)
Inductive DataT : Type :=
| vector_uint8
| fixed_layout (sizeof_data : N).

(** A [data] member.  The contents of a fixed-layout payload are never
    touched by this code. *)
Inductive Data : Type :=
| vector_data (bytes : list Byte.byte)
| fixed_data (sizeof_data : N).

(** A value-initialised [data] member, as in a freshly constructed message. *)
Definition default_data (ty : DataT) : Data :=
  match ty with
  | vector_uint8 => vector_data []
  | fixed_layout n => fixed_data n
  end.

(** [std::vector<uint8_t>::resize(size)]: truncate, or pad with zero bytes. *)
Definition vector_resize (v : list Byte.byte) (size : N) : list Byte.byte :=
  firstn (N.to_nat size) v ++ repeat Byte.x00 (N.to_nat size - List.length v).

(** [Topic<Msg>] and [Service<Srv>] of [communication.hpp]: a name, and for a
    topic the [data] type of its message type. *)
Record Topic : Type := mkTopic { topic_name : string; topic_data : DataT }.
Record Service : Type := mkService { service_name : string }.

(** What a function that may throw produced: the state it returned with, or
    the state at the point where [std::out_of_range] left it, or the state
    at the point where its behaviour became undefined (an integer division by
    zero, which stops the process). *)
Inductive Outcome (S : Type) : Type :=
| Returned (s : S)
| Thrown (s : S)
| Undefined (s : S).
Arguments Returned {S} s.
Arguments Thrown {S} s.
Arguments Undefined {S} s.

(** The state a call leaves behind, however it ended. *)
Definition state_of {S : Type} (o : Outcome S) : S :=
  match o with
  | Returned s => s
  | Thrown s => s
  | Undefined s => s
  end.

(* ================================================================== *)
(** * [PerformanceNodeBase] *)

Module PerformanceNodeBase.

(** A message of some type [Msg]: the header and the [data] member. *)
Record Message : Type := mkMessage { header : Header.t; data : Data }.

(** The [rclcpp] entities behind the [std::shared_ptr<void>] of each map,
    reduced to what they were created with. *)
Record Publisher : Type := mkPublisher {
  pub_topic : string; pub_qos : rmw_qos_profile_t }.
Record Subscription : Type := mkSubscription {
  sub_topic : string; sub_qos : rmw_qos_profile_t; sub_callback : msg_pass_by_t }.
Record Client : Type := mkClient {
  client_service : string; client_qos : rmw_qos_profile_t }.
Record Server : Type := mkServer {
  server_service : string; server_qos : rmw_qos_profile_t }.

(** The closures given to [add_timer]: [_publish<Msg>] or [_request<Srv>]
    bound to their arguments. *)
Inductive TimerTask : Type :=
| publisher_task (name : string) (Msg : DataT) (msg_pass_by : msg_pass_by_t)
    (size : N) (period : Z)
| client_task (name : string) (size : N).

Record Timer : Type := mkTimer { timer_period : Z; timer_callback : TimerTask }.

(** The members of the class, followed by the two observable effects on the
    middleware: the messages handed to [pub->publish], oldest first, and the
    requests handed to [async_send_request] whose response has not arrived. *)
Record t : Type := mk {
  m_node_name : string;
  m_executor_id : Z;
  _pubs : StdMap.t (Publisher * Tracker.t);
  _subs : StdMap.t (Subscription * Tracker.t);
  _clients : StdMap.t (Client * Tracker.t * Tracker.TrackingNumber);
  _servers : StdMap.t (Server * Tracker.t);
  _timers : list Timer;
  _events_logger : option EventsLogger.t;
  _client_lock : bool;
  published : list (string * msg_pass_by_t * Message);
  outstanding : list (string * Header.t)
}.

(** [PerformanceNodeBase(executor_id)] followed by [set_ros_node]. *)
Definition new (name : string) (executor_id : Z) : t :=
  {| m_node_name := name; m_executor_id := executor_id;
     _pubs := []; _subs := []; _clients := []; _servers := [];
     _timers := []; _events_logger := None; _client_lock := false;
     published := []; outstanding := [] |}.

Definition with_pubs (x : StdMap.t (Publisher * Tracker.t)) (n : t) : t :=
  mk (m_node_name n) (m_executor_id n) x (_subs n) (_clients n) (_servers n)
     (_timers n) (_events_logger n) (_client_lock n) (published n) (outstanding n).
Definition with_subs (x : StdMap.t (Subscription * Tracker.t)) (n : t) : t :=
  mk (m_node_name n) (m_executor_id n) (_pubs n) x (_clients n) (_servers n)
     (_timers n) (_events_logger n) (_client_lock n) (published n) (outstanding n).
Definition with_clients
    (x : StdMap.t (Client * Tracker.t * Tracker.TrackingNumber)) (n : t) : t :=
  mk (m_node_name n) (m_executor_id n) (_pubs n) (_subs n) x (_servers n)
     (_timers n) (_events_logger n) (_client_lock n) (published n) (outstanding n).
Definition with_servers (x : StdMap.t (Server * Tracker.t)) (n : t) : t :=
  mk (m_node_name n) (m_executor_id n) (_pubs n) (_subs n) (_clients n) x
     (_timers n) (_events_logger n) (_client_lock n) (published n) (outstanding n).
Definition with_timers (x : list Timer) (n : t) : t :=
  mk (m_node_name n) (m_executor_id n) (_pubs n) (_subs n) (_clients n) (_servers n)
     x (_events_logger n) (_client_lock n) (published n) (outstanding n).
Definition with_events_logger (x : option EventsLogger.t) (n : t) : t :=
  mk (m_node_name n) (m_executor_id n) (_pubs n) (_subs n) (_clients n) (_servers n)
     (_timers n) x (_client_lock n) (published n) (outstanding n).
Definition with_client_lock (x : bool) (n : t) : t :=
  mk (m_node_name n) (m_executor_id n) (_pubs n) (_subs n) (_clients n) (_servers n)
     (_timers n) (_events_logger n) x (published n) (outstanding n).
Definition with_published (x : list (string * msg_pass_by_t * Message)) (n : t) : t :=
  mk (m_node_name n) (m_executor_id n) (_pubs n) (_subs n) (_clients n) (_servers n)
     (_timers n) (_events_logger n) (_client_lock n) x (outstanding n).
Definition with_outstanding (x : list (string * Header.t)) (n : t) : t :=
  mk (m_node_name n) (m_executor_id n) (_pubs n) (_subs n) (_clients n) (_servers n)
     (_timers n) (_events_logger n) (_client_lock n) (published n) x.

(** ** Construction of the endpoints *)

Definition add_timer (period : Z) (callback : TimerTask) (n : t) : t :=
  with_timers (_timers n ++ [mkTimer period callback]) n.

(** Both cases of the [switch] create the subscription the same way, with
    the callback instantiated at the shared or at the unique pointer. *)
Definition add_subscriber (topic : Topic) (msg_pass_by : msg_pass_by_t)
    (tracking_options : Tracker.TrackingOptions)
    (qos_profile : rmw_qos_profile_t) (n : t) : t :=
  let sub :=
    match msg_pass_by with
    | PASS_BY_SHARED_PTR =>
        mkSubscription (topic_name topic) qos_profile PASS_BY_SHARED_PTR
    | PASS_BY_UNIQUE_PTR =>
        mkSubscription (topic_name topic) qos_profile PASS_BY_UNIQUE_PTR
    end in
  with_subs
    (StdMap.insert (topic_name topic)
       (sub, Tracker.new (m_node_name n) (topic_name topic) tracking_options)
       (_subs n)) n.

Definition add_publisher (topic : Topic) (qos_profile : rmw_qos_profile_t)
    (n : t) : t :=
  let pub := mkPublisher (topic_name topic) qos_profile in
  let tracking_options := Tracker.DefaultOptions in
  with_pubs
    (StdMap.insert (topic_name topic)
       (pub, Tracker.new (m_node_name n) (topic_name topic) tracking_options)
       (_pubs n)) n.

Definition add_periodic_publisher (topic : Topic) (period : Z)
    (msg_pass_by : msg_pass_by_t) (qos_profile : rmw_qos_profile_t)
    (size : N) (n : t) : t :=
  let n1 := add_publisher topic qos_profile n in
  add_timer period
    (publisher_task (topic_name topic) (topic_data topic) msg_pass_by size period)
    n1.

Definition add_server (service : Service) (qos_profile : rmw_qos_profile_t)
    (n : t) : t :=
  let server := mkServer (service_name service) qos_profile in
  with_servers
    (StdMap.insert (service_name service)
       (server,
        Tracker.new (m_node_name n) (service_name service) Tracker.DefaultOptions)
       (_servers n)) n.

Definition add_client (service : Service) (qos_profile : rmw_qos_profile_t)
    (n : t) : t :=
  let client := mkClient (service_name service) qos_profile in
  with_clients
    (StdMap.insert (service_name service)
       (client,
        Tracker.new (m_node_name n) (service_name service) Tracker.DefaultOptions,
        0)
       (_clients n)) n.

(** [1000000 / period.count()] is an integer division, undefined for a
    period of 0: the call stops there, after [add_client] and before the
    frequency is stored or the timer created.  Otherwise the quotient, of at
    most seven digits, is converted to [float] by [set_frequency] without
    rounding. *)
Definition add_periodic_client (service : Service) (period : Z)
    (qos_profile : rmw_qos_profile_t) (size : N) (n : t) : Outcome t :=
  let n1 := add_client service qos_profile n in
  match StdMap.at_ (service_name service) (_clients n1) with
  | None => Thrown n1
  | Some (client, tracker, tracking_number) =>
      if (period =? 0)%Z then Undefined n1
      else
        let tracker' :=
          Tracker.set_frequency (float_of_Z (Z.quot 1000000 period)) tracker in
        let n2 :=
          with_clients
            (StdMap.assign (service_name service)
               (client, tracker', tracking_number) (_clients n1)) n1 in
        Returned (add_timer period (client_task (service_name service) size) n2)
  end.

(** [set_events_logger(ev)], whose assertion excludes a null [ev]. *)
Definition set_events_logger (ev : EventsLogger.t) (n : t) : t :=
  with_events_logger (Some ev) n.

Definition get_executor_id (n : t) : Z := m_executor_id n.

(** ** The trackers of a node *)

Definition Trackers := list (string * Tracker.t).

(** The loops over [_pubs] and over [_servers] are commented out in the
    source. *)
Definition all_trackers (n : t) : Trackers :=
  let trackers := [] in
  let trackers :=
    fold_left (fun acc sub => acc ++ [(fst sub, snd (snd sub))]) (_subs n) trackers in
  let trackers :=
    fold_left (fun acc client => acc ++ [(fst client, snd (fst (snd client)))])
      (_clients n) trackers in
  trackers.

Definition pub_trackers (n : t) : Trackers :=
  fold_left (fun acc pub => acc ++ [(fst pub, snd (snd pub))]) (_pubs n) [].

Definition get_published_topics (n : t) : list string :=
  fold_left (fun topics pub_tracker => topics ++ [fst pub_tracker]) (_pubs n) [].

(** ** Publishing *)

Definition create_msg_header (publish_time : Time) (pub_frequency : float)
    (tracking_number : Tracker.TrackingNumber) (msg_size : N) : Header.t :=
  {| Header.size := msg_size;
     Header.frequency := pub_frequency;
     Header.tracking_number := tracking_number;
     Header.stamp := publish_time |}.

(** The two overloads of [resize_msg]: the resized [data] and the returned
    size.  "The payload is not a vector: nothing to resize". *)
Definition resize_msg (d : Data) (size : N) : Data * N :=
  match d with
  | fixed_data sizeof_data => (fixed_data sizeof_data, sizeof_data)
  | vector_data v => (vector_data (vector_resize v size), size)
  end.

(** [(end_time - publish_time).nanoseconds() / 1000.0f] stored in an
    [unsigned long]: the nanoseconds are converted to [float], divided in
    single precision, and the integer part of the quotient is kept. *)
Definition elapsed_us (publish_time end_time : Time) : Z :=
  unsigned_long_of_float32
    (float32_div (float32_of_Z (end_time - publish_time)) (float32_of_Z 1000)).

(** [_publish<Msg>].  [publish_time] and [end_time] are the two readings
    of the node clock.  [pub_frequency] is a C++ [float]: the [double]
    quotient [1000000.0 / period.count()] rounded to single precision. *)
Definition _publish (Msg : DataT) (name : string) (msg_pass_by : msg_pass_by_t)
    (size : N) (period : Z) (publish_time end_time : Time) (n : t) : Outcome t :=
  match StdMap.at_ name (_pubs n) with
  | None => Thrown n
  | Some (pub, tracker) =>
      let pub_frequency :=
        to_float32 (float_of_Z 1000000 / float_of_Z period)%float in
      let '(tracking_number, tracker) :=
        Tracker.get_and_update_tracking_number tracker in
      let '(sent, msg_size, pub_time_us) :=
        match msg_pass_by with
        | PASS_BY_SHARED_PTR =>
            let '(d, msg_size) := resize_msg (default_data Msg) size in
            let msg :=
              mkMessage
                (create_msg_header publish_time pub_frequency tracking_number msg_size)
                d in
            ((name, PASS_BY_SHARED_PTR, msg), msg_size,
             elapsed_us publish_time end_time)
        | PASS_BY_UNIQUE_PTR =>
            let '(d, msg_size) := resize_msg (default_data Msg) size in
            let msg :=
              mkMessage
                (create_msg_header publish_time pub_frequency tracking_number msg_size)
                d in
            ((name, PASS_BY_UNIQUE_PTR, msg), msg_size,
             elapsed_us publish_time end_time)
        end in
      let tracker := Tracker.set_frequency pub_frequency tracker in
      let tracker := Tracker.set_size msg_size tracker in
      let tracker := Tracker.add_sample (float_of_Z pub_time_us) tracker in
      Returned
        (with_published (published n ++ [sent])
           (with_pubs (StdMap.assign name (pub, tracker) (_pubs n)) n))
  end.

(** ** Receiving *)

(** [tracker.scan(header, now, _events_logger)] with the logger of the
    node, which is null until [set_events_logger] is called: nothing can be
    written to a null logger. *)
Definition scan_with_logger (logger : option EventsLogger.t) (h : Header.t)
    (now : Time) (tracker : Tracker.t) : Tracker.t * option EventsLogger.t :=
  match logger with
  | Some log =>
      let '(tracker', log') := Tracker.scan h now log tracker in
      (tracker', Some log')
  | None => (fst (Tracker.scan h now [] tracker), None)
  end.

Definition _topic_callback (name : string) (msg : Message) (now : Time)
    (n : t) : Outcome t :=
  match StdMap.at_ name (_subs n) with
  | None => Thrown n
  | Some (sub, tracker) =>
      let '(tracker', logger') :=
        scan_with_logger (_events_logger n) (header msg) now tracker in
      Returned
        (with_events_logger logger'
           (with_subs (StdMap.assign name (sub, tracker') (_subs n)) n))
  end.

(** ** Clients *)

(** [client->wait_for_service(timeout)]: whether the server is discovered
    before the timeout expires; [ready_in] is the time after which the
    server comes online, if it ever does. *)
Definition wait_for_service (ready_in : option Z) (timeout : Z) : bool :=
  match ready_in with
  | Some d => (d <? timeout)%Z
  | None => false
  end.

(** [1.0s], in nanoseconds. *)
Definition one_second : Z := 1000000000.

Definition service_unavailable_event (name : string) (n : t) : EventsLogger.Event :=
  {| EventsLogger.caller_name := (name ++ "->" ++ m_node_name n)%string;
     EventsLogger.code := EventsLogger.service_unavailable;
     EventsLogger.description :=
       ("[service] '" ++ name ++ "' unavailable after 1s")%string |}.

(** [client->async_send_request(request, callback)]: the request is on
    its way and [_response_received_callback], bound to [name] and to the
    request, runs when the response arrives. *)
Definition async_send_request (name : string) (request : Header.t) (n : t) : t :=
  with_outstanding (outstanding n ++ [(name, request)]) n.

(** [_request<Srv>].  [ready_in] decides the availability probe and [now]
    is the clock reading stamped on the request. *)
Definition _request (name : string) (size : N) (ready_in : option Z)
    (now : Time) (n : t) : Outcome t :=
  if _client_lock n then Returned n
  else
    let n := with_client_lock true n in
    match StdMap.at_ name (_clients n) with
    | None => Thrown n
    | Some (client, tracker, tracking_number) =>
        if negb (wait_for_service ready_in one_second) then
          let n :=
            match _events_logger n with
            | Some log =>
                with_events_logger
                  (Some (EventsLogger.write_event
                           (service_unavailable_event name n) log)) n
            | None => n
            end in
          Returned (with_client_lock false n)
        else
          let request :=
            {| Header.size := 0;
               Header.frequency := Tracker.frequency tracker;
               Header.tracking_number := tracking_number;
               Header.stamp := now |} in
          let n := async_send_request name request n in
          let n :=
            with_clients
              (StdMap.assign name
                 (client, tracker, Tracker.increment tracking_number)
                 (_clients n)) n in
          Returned (with_client_lock false n)
    end.

Definition _response_received_callback (name : string) (request : Header.t)
    (now : Time) (n : t) : Outcome t :=
  match StdMap.at_ name (_clients n) with
  | None => Thrown n
  | Some (client, tracker, tracking_number) =>
      let '(tracker', logger') :=
        scan_with_logger (_events_logger n) request now tracker in
      Returned
        (with_events_logger logger'
           (with_clients
              (StdMap.assign name (client, tracker', tracking_number)
                 (_clients n)) n))
  end.

(** The middleware delivers the response to the [i]-th outstanding request. *)
Definition response_arrives (i : nat) (now : Time) (n : t) : Outcome t :=
  match nth_error (outstanding n) i with
  | None => Returned n
  | Some (name, request) =>
      _response_received_callback name request now
        (with_outstanding
           (firstn i (outstanding n) ++ skipn (S i) (outstanding n)) n)
  end.

(** The requests of client [name] that still wait for their response. *)
Definition outstanding_of (name : string) (n : t) : list Header.t :=
  map snd (filter (fun r => String.eqb (fst r) name) (outstanding n)).

(** ** Servers *)

(** [_service_callback<Srv>]: the node and the header of the response
    object passed in by the middleware. *)
Definition _service_callback (name : string) (request : Header.t)
    (response : Header.t) (now : Time) (n : t) : Outcome (t * Header.t) :=
  match StdMap.at_ name (_servers n) with
  | None => Thrown (n, response)
  | Some (server, tracker) =>
      let response :=
        {| Header.size := Header.size response;
           Header.frequency := Header.frequency request;
           Header.tracking_number := Tracker.stat_n tracker;
           Header.stamp := now |} in
      let '(tracker', logger') :=
        scan_with_logger (_events_logger n) request (Header.stamp response) tracker in
      Returned
        (with_events_logger logger'
           (with_servers (StdMap.assign name (server, tracker') (_servers n)) n),
         response)
  end.

(** What a timer does when it fires. *)
Definition run_timer (task : TimerTask) (ready_in : option Z)
    (now end_time : Time) (n : t) : Outcome t :=
  match task with
  | publisher_task name Msg msg_pass_by size period =>
      _publish Msg name msg_pass_by size period now end_time n
  | client_task name size => _request name size ready_in now n
  end.

(** The invariant of the four containers. *)
Definition well_formed (n : t) : Prop :=
  StdMap.wf (_pubs n) /\ StdMap.wf (_subs n)
  /\ StdMap.wf (_clients n) /\ StdMap.wf (_servers n).

(** The publisher timer fires once per pair of clock readings, until a
    firing throws. *)
Fixpoint publish_times (Msg : DataT) (name : string) (msg_pass_by : msg_pass_by_t)
    (size : N) (period : Z) (clocks : list (Time * Time)) (n : t) : Outcome t :=
  match clocks with
  | [] => Returned n
  | (publish_time, end_time) :: clocks' =>
      match _publish Msg name msg_pass_by size period publish_time end_time n with
      | Returned n' => publish_times Msg name msg_pass_by size period clocks' n'
      | Thrown n' => Thrown n'
      | Undefined n' => Undefined n'
      end
  end.

(** The client timer fires once per cycle, a cycle being the outcome of the
    availability probe and the clock reading, until a firing throws. *)
Fixpoint request_times (name : string) (size : N)
    (cycles : list (option Z * Time)) (n : t) : Outcome t :=
  match cycles with
  | [] => Returned n
  | (ready_in, now) :: cycles' =>
      match _request name size ready_in now n with
      | Returned n' => request_times name size cycles' n'
      | Thrown n' => Thrown n'
      | Undefined n' => Undefined n'
      end
  end.

(** The cycles whose probe finds the server, and those whose probe fails. *)
Definition reachable (cycles : list (option Z * Time)) : list (option Z * Time) :=
  filter (fun c => wait_for_service (fst c) one_second) cycles.
Definition unreachable (cycles : list (option Z * Time)) : list (option Z * Time) :=
  filter (fun c => negb (wait_for_service (fst c) one_second)) cycles.

(** The tracking numbers stamped on the messages published on [name]. *)
Definition stamped (name : string) (n : t) : list Tracker.TrackingNumber :=
  map (fun m => Header.tracking_number (header (snd m)))
      (filter (fun m => String.eqb (fst (fst m)) name) (published n)).

(** ** Histories *)

(** Everything that can happen to a node: the calls that wire it and the
    callbacks that the timers and the middleware run on it, each with the
    arguments and the clock readings it gets. *)
Inductive Operation : Type :=
| AddSubscriber (topic : Topic) (msg_pass_by : msg_pass_by_t)
    (tracking_options : Tracker.TrackingOptions) (qos_profile : rmw_qos_profile_t)
| AddPublisher (topic : Topic) (qos_profile : rmw_qos_profile_t)
| AddPeriodicPublisher (topic : Topic) (period : Z) (msg_pass_by : msg_pass_by_t)
    (qos_profile : rmw_qos_profile_t) (size : N)
| AddServer (service : Service) (qos_profile : rmw_qos_profile_t)
| AddClient (service : Service) (qos_profile : rmw_qos_profile_t)
| AddPeriodicClient (service : Service) (period : Z)
    (qos_profile : rmw_qos_profile_t) (size : N)
| SetEventsLogger (ev : EventsLogger.t)
| Publish (Msg : DataT) (name : string) (msg_pass_by : msg_pass_by_t) (size : N)
    (period : Z) (publish_time end_time : Time)
| TopicCallback (name : string) (msg : Message) (now : Time)
| Request (name : string) (size : N) (ready_in : option Z) (now : Time)
| ResponseReceived (name : string) (request : Header.t) (now : Time)
| ServiceCallback (name : string) (request response : Header.t) (now : Time).

(** The node after one operation, whether it returned, threw or stopped. *)
Definition after (op : Operation) (n : t) : t :=
  match op with
  | AddSubscriber topic msg_pass_by tracking_options qos_profile =>
      add_subscriber topic msg_pass_by tracking_options qos_profile n
  | AddPublisher topic qos_profile => add_publisher topic qos_profile n
  | AddPeriodicPublisher topic period msg_pass_by qos_profile size =>
      add_periodic_publisher topic period msg_pass_by qos_profile size n
  | AddServer service qos_profile => add_server service qos_profile n
  | AddClient service qos_profile => add_client service qos_profile n
  | AddPeriodicClient service period qos_profile size =>
      state_of (add_periodic_client service period qos_profile size n)
  | SetEventsLogger ev => set_events_logger ev n
  | Publish Msg name msg_pass_by size period publish_time end_time =>
      state_of (_publish Msg name msg_pass_by size period publish_time end_time n)
  | TopicCallback name msg now => state_of (_topic_callback name msg now n)
  | Request name size ready_in now => state_of (_request name size ready_in now n)
  | ResponseReceived name request now =>
      state_of (_response_received_callback name request now n)
  | ServiceCallback name request response now =>
      fst (state_of (_service_callback name request response now n))
  end.

(** The node after a history of operations, oldest first. *)
Definition after_all (history : list Operation) (n : t) : t :=
  fold_left (fun n op => after op n) history n.

(** A tracker that reports the node and the endpoint it was created for. *)
Definition tracker_named (node name : string) (tr : Tracker.t) : Prop :=
  Tracker.node_name tr = node /\ Tracker.topic_srv_name tr = name.

(** Every tracker of the node sits under the name it reports. *)
Definition consistent (n : t) : Prop :=
  well_formed n
  /\ Forall (fun e => tracker_named (m_node_name n) (fst e) (snd (snd e))) (_pubs n)
  /\ Forall (fun e => tracker_named (m_node_name n) (fst e) (snd (snd e))) (_subs n)
  /\ Forall (fun e => tracker_named (m_node_name n) (fst e) (snd (fst (snd e))))
       (_clients n)
  /\ Forall (fun e => tracker_named (m_node_name n) (fst e) (snd (snd e))) (_servers n).

(** [n'] has every endpoint, timer, published message and logger that [n]
    has, and the same identity. *)
Definition extends (n n' : t) : Prop :=
  (m_node_name n' = m_node_name n /\ m_executor_id n' = m_executor_id n)
  /\ (incl (StdMap.keys (_pubs n)) (StdMap.keys (_pubs n'))
      /\ incl (StdMap.keys (_subs n)) (StdMap.keys (_subs n'))
      /\ incl (StdMap.keys (_clients n)) (StdMap.keys (_clients n'))
      /\ incl (StdMap.keys (_servers n)) (StdMap.keys (_servers n')))
  /\ (exists timers, _timers n' = _timers n ++ timers)
  /\ (exists msgs, published n' = published n ++ msgs)
  /\ (_events_logger n <> None -> _events_logger n' <> None).

(** The endpoint a timer task was bound to is an endpoint of the node. *)
Definition task_bound (n : t) (task : TimerTask) : Prop :=
  match task with
  | publisher_task name _ _ _ _ => In name (StdMap.keys (_pubs n))
  | client_task name _ => In name (StdMap.keys (_clients n))
  end.

(** The timers an operation registers.  [add_periodic_client] with a period
    of 0 stops before [add_timer] and registers none. *)
Definition timers_of (op : Operation) : list Timer :=
  match op with
  | AddPeriodicPublisher topic period msg_pass_by _ size =>
      [mkTimer period
         (publisher_task (topic_name topic) (topic_data topic) msg_pass_by size period)]
  | AddPeriodicClient service period _ size =>
      if (period =? 0)%Z then []
      else [mkTimer period (client_task (service_name service) size)]
  | _ => []
  end.

(** The operations whose behaviour is undefined, after which the process
    does not go on: [add_periodic_client] with a period of 0. *)
Definition stops (op : Operation) : bool :=
  match op with
  | AddPeriodicClient _ period _ _ => (period =? 0)%Z
  | _ => false
  end.

End PerformanceNodeBase.

(* ================================================================== *)
(** * [Mandalay] (FastDDS benchmark of the mandalay topology) *)

Module Mandalay.

(** Conversions to [uint32_t] and [int32_t]. *)
Definition to_uint32 (z : Z) : Z := (z mod 2 ^ 32)%Z.
Definition to_int32 (z : Z) : Z := ((z + 2 ^ 31) mod 2 ^ 32 - 2 ^ 31)%Z.

(** The header of the generated message types, as [fill_msg] and
    [set_msg_size] write it. *)
Record Header : Type := mkHeader {
  tracking_number : Z;
  frequency : float;
  size : N;
  sec : Z;
  nanosec : Z
}.

Record Message : Type := mkMessage { header : Header; data : Data }.

(** [MsgType msg;] *)
Definition default_msg (MsgType : DataT) : Message :=
  mkMessage (mkHeader 0 0%float 0 0 0) (default_data MsgType).

Definition with_size (s : N) (h : Header) : Header :=
  mkHeader (tracking_number h) (frequency h) s (sec h) (nanosec h).

(** [now] is a reading of [high_resolution_clock], in nanoseconds since the
    epoch; [time_point_cast] truncates. *)
Definition seconds_since_epoch (now : Z) : Z :=
  to_int32 (Z.quot now 1000000000).

Definition nanoseconds_diff (now : Z) : Z :=
  let now_s_epoch := Z.quot now 1000000000 in
  let now_ns_epoch := now in
  let now_ns_diff := (now_ns_epoch - now_s_epoch * 1000000000)%Z in
  to_uint32 now_ns_diff.

(** The two overloads of [set_msg_size]: "If the data field of the message
    is a vector, resize it"; "If the data field of the message is not a
    vector, just set size on header". *)
Definition set_msg_size (msg : Message) (size : N) : Message :=
  match data msg with
  | vector_data v =>
      mkMessage (with_size size (header msg)) (vector_data (vector_resize v size))
  | fixed_data sizeof_data =>
      mkMessage (with_size size (header msg)) (fixed_data sizeof_data)
  end.

Definition fill_msg (msg : Message) (tracking_number : Z) (period : Z)
    (size : N) (name : string) (now : Z) : Message :=
  let h := header msg in
  let h := mkHeader tracking_number
             (float_of_Z 1000 / float_of_Z period)%float
             (Mandalay.size h) (sec h) (nanosec h) in
  let msg := set_msg_size (mkMessage h (data msg)) size in
  let h := header msg in
  mkMessage
    (mkHeader (Mandalay.tracking_number h) (frequency h) (Mandalay.size h)
       (seconds_since_epoch now) (nanoseconds_diff now))
    (data msg).

(** The body of [while (run_threads)] in [publish<MsgType>], once per clock
    reading of [nows]: the loop runs as many times as [run_threads] is read
    true.  The state is the local [tracking_number] and the messages given
    to [data_writer->write], oldest first. *)
Fixpoint publish_loop (MsgType : DataT) (period : Z) (size : N) (name : string)
    (nows : list Z) (tracking_number : Z) (written : list Message)
    : Z * list Message :=
  match nows with
  | [] => (tracking_number, written)
  | now :: nows' =>
      let msg := fill_msg (default_msg MsgType) tracking_number period size name now in
      let tracking_number := to_uint32 (tracking_number + 1) in
      publish_loop MsgType period size name nows' tracking_number (written ++ [msg])
  end.

Definition publish (MsgType : DataT) (period : Z) (size : N) (name : string)
    (nows : list Z) : list Message :=
  let tracking_number := 0%Z in
  snd (publish_loop MsgType period size name nows tracking_number []).

(** The tracking numbers stamped on a run of written messages. *)
Definition tracking_numbers (msgs : list Message) : list Z :=
  map (fun m => tracking_number (header m)) msgs.

End Mandalay.

(* ================================================================== *)
(** * [TemplateFactory] *)

Module TemplateFactory.

(** [std::chrono::milliseconds(10)] as [std::chrono::microseconds]. *)
Definition milliseconds (ms : Z) : Z := (ms * 1000)%Z.

(** The arguments with which the body of each [add_..._from_strings] runs.
    The bodies are in [factory.cpp]; the declarations fix what an omitted
    trailing argument stands for. *)
Record subscriber_arguments : Type := mkSub {
  sub_msg_type : string; sub_topic_name : string;
  sub_tracking_options : Tracker.TrackingOptions;
  sub_msg_pass_by : msg_pass_by_t; sub_qos : rmw_qos_profile_t }.

Record publisher_arguments : Type := mkPub {
  pub_msg_type : string; pub_topic_name : string;
  pub_msg_pass_by : msg_pass_by_t; pub_qos : rmw_qos_profile_t;
  pub_period : Z; pub_msg_size : N }.

Record client_arguments : Type := mkClient {
  client_srv_type : string; client_service_name : string;
  client_qos : rmw_qos_profile_t; client_period : Z }.

Record server_arguments : Type := mkServer {
  server_srv_type : string; server_service_name : string;
  server_qos : rmw_qos_profile_t }.

(** Only trailing arguments can be omitted, hence the nesting: [None] omits
    everything from that position on. *)
Definition add_subscriber_from_strings (msg_type topic_name : string)
    (tracking_options : Tracker.TrackingOptions)
    (optional : option (msg_pass_by_t * option rmw_qos_profile_t))
    : subscriber_arguments :=
  match optional with
  | None =>
      mkSub msg_type topic_name tracking_options
        PASS_BY_SHARED_PTR rmw_qos_profile_default
  | Some (msg_pass_by, None) =>
      mkSub msg_type topic_name tracking_options
        msg_pass_by rmw_qos_profile_default
  | Some (msg_pass_by, Some custom_qos_profile) =>
      mkSub msg_type topic_name tracking_options
        msg_pass_by custom_qos_profile
  end.

Definition add_periodic_publisher_from_strings (msg_type topic_name : string)
    (optional :
       option (msg_pass_by_t * option (rmw_qos_profile_t * option (Z * option N))))
    : publisher_arguments :=
  match optional with
  | None =>
      mkPub msg_type topic_name
        PASS_BY_UNIQUE_PTR rmw_qos_profile_default (milliseconds 10) 0
  | Some (msg_pass_by, None) =>
      mkPub msg_type topic_name
        msg_pass_by rmw_qos_profile_default (milliseconds 10) 0
  | Some (msg_pass_by, Some (custom_qos_profile, None)) =>
      mkPub msg_type topic_name
        msg_pass_by custom_qos_profile (milliseconds 10) 0
  | Some (msg_pass_by, Some (custom_qos_profile, Some (period, None))) =>
      mkPub msg_type topic_name msg_pass_by custom_qos_profile period 0
  | Some (msg_pass_by, Some (custom_qos_profile, Some (period, Some msg_size))) =>
      mkPub msg_type topic_name msg_pass_by custom_qos_profile period msg_size
  end.

Definition add_periodic_client_from_strings (srv_type service_name : string)
    (optional : option (rmw_qos_profile_t * option Z)) : client_arguments :=
  match optional with
  | None =>
      mkClient srv_type service_name rmw_qos_profile_default (milliseconds 10)
  | Some (custom_qos_profile, None) =>
      mkClient srv_type service_name custom_qos_profile (milliseconds 10)
  | Some (custom_qos_profile, Some period) =>
      mkClient srv_type service_name custom_qos_profile period
  end.

Definition add_server_from_strings (srv_type service_name : string)
    (optional : option rmw_qos_profile_t) : server_arguments :=
  match optional with
  | None => mkServer srv_type service_name rmw_qos_profile_default
  | Some custom_qos_profile => mkServer srv_type service_name custom_qos_profile
  end.

(** Modelled from the spec: the names of bulk-created nodes.  The bodies of
    [create_subscriber_nodes], [create_periodic_publisher_nodes],
    [create_periodic_client_nodes] and [create_server_nodes] are in
    [factory.cpp], which is not among the sources; the design document has
    them name their nodes "by concatenating a fixed prefix with each integer
    in [start_id, end_id]", and the header gives the prefix: "node_X". *)
Definition id_to_node_name (id : Z) : string := ("node_" ++ string_of_Z id)%string.

(** The integers [start_id], [start_id + 1], ..., [end_id]. *)
Definition ids (start_id end_id : Z) : list Z :=
  map (fun i => (start_id + Z.of_nat i)%Z)
      (seq 0 (Z.to_nat (end_id - start_id + 1))).

(** Modelled from the spec: [create_node(name, ..., executor_id)], a node
    without endpoints. *)
Definition create_node (name : string) (executor_id : Z) : PerformanceNodeBase.t :=
  PerformanceNodeBase.new name executor_id.

(** Modelled from the spec: the nodes returned by a range-based helper,
    before their endpoints are attached (the design document does not say
    which endpoints each helper adds). *)
Definition create_nodes (start_id end_id : Z) : list PerformanceNodeBase.t :=
  map (fun id => create_node (id_to_node_name id) 0) (ids start_id end_id).

End TemplateFactory.

(* ================================================================== *)
(** * Concrete scenarios *)

Module Scenario.

(** A sample of a 100 Hz topic with tracking number [tn], sent at
    [tn * 10 ms] and received 250 us later. *)
Definition sample (tn : N) : Header.t * Time :=
  (Header.mk 8 100%float tn (Z.of_N tn * 10000000)%Z,
   (Z.of_N tn * 10000000 + 250000)%Z).


(** A node with two subscribers, one periodic publisher, one server and one
    periodic client at 100 Hz, as the factory wires them. *)
Definition wired_node : PerformanceNodeBase.t :=
  state_of
    (PerformanceNodeBase.add_periodic_client (mkService "srv") 10000
       rmw_qos_profile_default 0
       (PerformanceNodeBase.add_server (mkService "echo") rmw_qos_profile_default
          (PerformanceNodeBase.add_periodic_publisher
             (mkTopic "missouri" vector_uint8) 10000 PASS_BY_UNIQUE_PTR
             rmw_qos_profile_default 64
             (PerformanceNodeBase.add_subscriber
                (mkTopic "danube" (fixed_layout 8)) PASS_BY_UNIQUE_PTR
                Tracker.DefaultOptions rmw_qos_profile_default
                (PerformanceNodeBase.add_subscriber
                   (mkTopic "salween" (fixed_layout 48)) PASS_BY_SHARED_PTR
                   Tracker.DefaultOptions rmw_qos_profile_default
                   (PerformanceNodeBase.new "node_1" 0)))))).

(** The same node once an events logger is attached. *)
Definition logged_node : PerformanceNodeBase.t :=
  PerformanceNodeBase.set_events_logger [] wired_node.

End Scenario.

(* ================================================================== *)
(** * Properties of the tracker *)

Unset Implicit Arguments.

Module TrackerFacts.
Import Tracker.

(** Counters of type [TrackingNumber] count modulo [2^32]. *)
Lemma increment_add_succ tn i :
  (increment tn + N.of_nat i) mod 2 ^ 32 = (tn + N.of_nat (S i)) mod 2 ^ 32.
Proof.
  unfold increment. rewrite N.Div0.add_mod_idemp_l. f_equal. lia.
Qed.

Lemma increment_small tn : increment tn mod 2 ^ 32 = increment tn.
Proof. unfold increment. apply N.Div0.mod_mod. Qed.

Lemma increment_wraps : increment 4294967295 = 0.
Proof. reflexivity. Qed.

Lemma numbers_from_increment (tn : TrackingNumber) (k : nat) :
  tn mod 2 ^ 32 = tn ->
  map (fun i => (tn + N.of_nat i) mod 2 ^ 32) (seq 0 (S k))
  = tn :: map (fun i => (increment tn + N.of_nat i) mod 2 ^ 32) (seq 0 k).
Proof.
  intros Hsmall. cbn [seq map N.of_nat].
  rewrite <- seq_shift, map_map, N.add_0_r, Hsmall. f_equal.
  apply map_ext. intros i. symmetry. apply increment_add_succ.
Qed.

Lemma scan_effect_holds h now sink tr : scan_effect tr (fst (scan h now sink tr)).
Proof.
  unfold scan.
  destruct (count tr =? 0);
    [ | destruct (expected_next_tracking_number tr <=? Header.tracking_number h);
        [ destruct (0 <? Header.tracking_number h - expected_next_tracking_number tr) | ] ];
    split; reflexivity.
Qed.

Lemma scan_first h now sink tr :
  count tr = 0 ->
  expected_next_tracking_number (fst (scan h now sink tr)) = Header.tracking_number h + 1
  /\ lost_count (fst (scan h now sink tr)) = lost_count tr
  /\ snd (scan h now sink tr) = sink.
Proof.
  intros Hc. unfold scan. rewrite Hc. simpl. repeat split.
Qed.

Lemma scan_expected h now sink tr :
  count tr <> 0 ->
  Header.tracking_number h = expected_next_tracking_number tr ->
  expected_next_tracking_number (fst (scan h now sink tr)) = Header.tracking_number h + 1
  /\ lost_count (fst (scan h now sink tr)) = lost_count tr
  /\ snd (scan h now sink tr) = sink.
Proof.
  intros Hc Htn. unfold scan.
  apply N.eqb_neq in Hc. rewrite Hc, Htn.
  rewrite N.leb_refl, N.sub_diag. simpl. repeat split.
Qed.

Lemma scan_gap h now sink tr :
  count tr <> 0 ->
  expected_next_tracking_number tr < Header.tracking_number h ->
  let gap := Header.tracking_number h - expected_next_tracking_number tr in
  expected_next_tracking_number (fst (scan h now sink tr)) = Header.tracking_number h + 1
  /\ lost_count (fst (scan h now sink tr)) = lost_count tr + gap
  /\ snd (scan h now sink tr) = sink ++ [loss_event tr gap].
Proof.
  intros Hc Hlt gap. unfold scan.
  apply N.eqb_neq in Hc. rewrite Hc.
  assert (Hle : (expected_next_tracking_number tr <=? Header.tracking_number h) = true)
    by (apply N.leb_le; lia).
  assert (Hpos : (0 <? Header.tracking_number h - expected_next_tracking_number tr) = true)
    by (apply N.ltb_lt; lia).
  rewrite Hle, Hpos. simpl. repeat split.
Qed.

Lemma scan_late h now sink tr :
  count tr <> 0 ->
  Header.tracking_number h < expected_next_tracking_number tr ->
  expected_next_tracking_number (fst (scan h now sink tr))
    = expected_next_tracking_number tr
  /\ lost_count (fst (scan h now sink tr)) = lost_count tr
  /\ snd (scan h now sink tr) = sink ++ [out_of_order_event tr h].
Proof.
  intros Hc Hlt. unfold scan.
  apply N.eqb_neq in Hc. rewrite Hc.
  assert (Hle : (expected_next_tracking_number tr <=? Header.tracking_number h) = false)
    by (apply N.leb_gt; lia).
  rewrite Hle. simpl. repeat split.
Qed.

Lemma scan_all_cons h now rest sink tr :
  scan_all ((h, now) :: rest) sink tr
  = scan_all rest (snd (scan h now sink tr)) (fst (scan h now sink tr)).
Proof. simpl. destruct (scan h now sink tr); reflexivity. Qed.

Lemma scan_all_app s1 s2 sink tr :
  scan_all (s1 ++ s2) sink tr
  = scan_all s2 (snd (scan_all s1 sink tr)) (fst (scan_all s1 sink tr)).
Proof.
  revert sink tr. induction s1 as [ | [h now] s1 IH]; intros sink tr.
  - reflexivity.
  - rewrite <- app_comm_cons, !scan_all_cons. apply IH.
Qed.

Lemma consecutive_from_cons first h now rest :
  consecutive_from first ((h, now) :: rest)
  <-> Header.tracking_number h = first /\ consecutive_from (first + 1) rest.
Proof.
  unfold consecutive_from. simpl.
  rewrite <- seq_shift, map_map, N.add_0_r.
  assert (Heq : map (fun i => first + N.of_nat (S i)) (seq 0 (List.length rest))
                = map (fun i => first + 1 + N.of_nat i) (seq 0 (List.length rest))).
  { apply map_ext. intros i. lia. }
  rewrite Heq. split.
  - intros H. injection H as H1 H2. auto.
  - intros [H1 H2]. rewrite H1, H2. reflexivity.
Qed.

(** An in-order stream after at least one sample: the detector follows it
    and reports nothing. *)
Lemma scan_all_in_order samples : forall sink tr,
  count tr <> 0 ->
  consecutive_from (expected_next_tracking_number tr) samples ->
  let r := scan_all samples sink tr in
  count (fst r) <> 0
  /\ expected_next_tracking_number (fst r)
     = expected_next_tracking_number tr + N.of_nat (List.length samples)
  /\ lost_count (fst r) = lost_count tr
  /\ topic_srv_name (fst r) = topic_srv_name tr
  /\ snd r = sink.
Proof.
  induction samples as [ | [h now] rest IH]; intros sink tr Hc Hseq r.
  - subst r. simpl. repeat split; auto. lia.
  - subst r. rewrite scan_all_cons.
    apply consecutive_from_cons in Hseq. destruct Hseq as [Htn Hrest].
    destruct (scan_expected h now sink tr Hc Htn) as (He & Hl & Hs).
    destruct (scan_effect_holds h now sink tr) as [Hcount Hname _].
    rewrite Hs.
    destruct (IH sink (fst (scan h now sink tr))) as (IHc & IHe & IHl & IHn & IHs).
    + rewrite Hcount. lia.
    + rewrite He, Htn. exact Hrest.
    + repeat split; auto.
      * rewrite IHe, He, Htn. simpl List.length. lia.
      * congruence.
      * congruence.
Qed.

(** A stream whose first sample jumps [k > 0] numbers ahead and which is in
    order afterwards: [k] more losses and one event. *)
Lemma scan_all_after_gap samples k : forall sink tr,
  count tr <> 0 ->
  0 < k ->
  samples <> [] ->
  consecutive_from (expected_next_tracking_number tr + k) samples ->
  let r := scan_all samples sink tr in
  lost_count (fst r) = lost_count tr + k
  /\ snd r = sink ++ [loss_event tr k].
Proof.
  intros sink tr Hc Hk Hne Hseq r. subst r.
  destruct samples as [ | [h now] rest]; [ congruence | ].
  apply consecutive_from_cons in Hseq. destruct Hseq as [Htn Hrest].
  rewrite scan_all_cons.
  assert (Hlt : expected_next_tracking_number tr < Header.tracking_number h) by lia.
  destruct (scan_gap h now sink tr Hc Hlt) as (He & Hl & Hs).
  destruct (scan_effect_holds h now sink tr) as [Hcount Hname _].
  replace (Header.tracking_number h - expected_next_tracking_number tr) with k in * by lia.
  destruct (scan_all_in_order rest (snd (scan h now sink tr)) (fst (scan h now sink tr)))
    as (_ & _ & IHl & _ & IHs).
  - rewrite Hcount. lia.
  - rewrite He, Htn. exact Hrest.
  - rewrite IHl, IHs, Hl, Hs. split; reflexivity.
Qed.

End TrackerFacts.

Module TrackerClaims.
Import Tracker TrackerFacts.

Lemma scan_keeps_invariant h now sink tr :
  counter_starts_at_zero (fst (scan h now sink tr)).
Proof.
  intros Hc. destruct (scan_effect_holds h now sink tr) as [Hcount _ _]. lia.
Qed.

Lemma scan_all_keeps_invariant samples : forall sink tr,
  counter_starts_at_zero tr ->
  counter_starts_at_zero (fst (scan_all samples sink tr)).
Proof.
  induction samples as [ | [h now] rest IH]; intros sink tr Hinv.
  - exact Hinv.
  - rewrite scan_all_cons. apply IH, scan_keeps_invariant.
Qed.

Lemma scan_monotone h now sink tr :
  counter_starts_at_zero tr ->
  expected_next_tracking_number tr
    <= expected_next_tracking_number (fst (scan h now sink tr))
  /\ lost_count tr <= lost_count (fst (scan h now sink tr)).
Proof.
  intros Hinv.
  destruct (N.eq_dec (count tr) 0) as [Hc | Hc].
  - destruct (scan_first h now sink tr Hc) as (He & Hl & _).
    rewrite He, Hl, (Hinv Hc). lia.
  - destruct (N.lt_trichotomy (Header.tracking_number h)
                (expected_next_tracking_number tr)) as [Hlt | [Heq | Hgt]].
    + destruct (scan_late h now sink tr Hc Hlt) as (He & Hl & _).
      rewrite He, Hl. lia.
    + destruct (scan_expected h now sink tr Hc Heq) as (He & Hl & _).
      rewrite He, Hl. lia.
    + destruct (scan_gap h now sink tr Hc Hgt) as (He & Hl & _).
      rewrite He, Hl. lia.
Qed.

Lemma scan_all_monotone samples : forall sink tr,
  counter_starts_at_zero tr ->
  expected_next_tracking_number tr
    <= expected_next_tracking_number (fst (scan_all samples sink tr))
  /\ lost_count tr <= lost_count (fst (scan_all samples sink tr)).
Proof.
  induction samples as [ | [h now] rest IH]; intros sink tr Hinv.
  - simpl. lia.
  - rewrite scan_all_cons.
    destruct (scan_monotone h now sink tr Hinv) as [He Hl].
    destruct (IH (snd (scan h now sink tr)) (fst (scan h now sink tr))
                (scan_keeps_invariant h now sink tr)) as [He' Hl'].
    lia.
Qed.

(** The example of the design document: 0, 1, 2, 6, 7. *)
Example scan_0_1_2_6_7 :
  let tr := new "node_1" "topic" DefaultOptions in
  let r := scan_all (map Scenario.sample [0; 1; 2; 6; 7]) [] tr in
  lost_count (fst r) = 3
  /\ map EventsLogger.code (snd r) = [EventsLogger.lost_messages 3]
  /\ expected_next_tracking_number (fst r) = 8
  /\ count (fst r) = 5.
Proof. vm_compute. repeat split. Qed.

(** A tracker that has seen samples, continued in order and then across one
    gap of [k]: [k] more losses, one more event. *)
Lemma scan_gap_after_samples tr sink k before after :
  count tr <> 0 ->
  0 < k ->
  after <> [] ->
  consecutive_from (expected_next_tracking_number tr) before ->
  consecutive_from
    (expected_next_tracking_number tr + N.of_nat (List.length before) + k) after ->
  (lost_count (fst (scan_all before sink tr)) = lost_count tr
   /\ snd (scan_all before sink tr) = sink)
  /\ (lost_count (fst (scan_all (before ++ after) sink tr)) = lost_count tr + k
      /\ snd (scan_all (before ++ after) sink tr) = sink ++ [loss_event tr k]).
Proof.
  intros Hseen Hk Ha Hbefore Hafter.
  destruct (scan_all_in_order before sink tr Hseen Hbefore)
    as (IHc & IHe & IHl & IHn & IHs).
  split; [ split; assumption | ].
  rewrite scan_all_app.
  destruct (scan_all_after_gap after k (snd (scan_all before sink tr))
              (fst (scan_all before sink tr)) IHc Hk Ha) as [Hlost Hsink].
  { rewrite IHe. exact Hafter. }
  rewrite Hlost, Hsink, IHl, IHs. split; [ reflexivity | ].
  unfold loss_event. rewrite IHn. reflexivity.
Qed.

(** C1.  An accumulator scans a stream that is in order up to a single gap:
    [before] is numbered consecutively, then [k > 0] numbers are missing, then
    [after] continues in order.  First, for an accumulator that has already
    seen a sample and is continued from the number it expects: the in-order
    part leaves [lost_count] as it is and writes nothing to the sink, the gap
    adds exactly [k] to [lost_count] and writes exactly one event, the loss
    event with gap [k].  Second, for a fresh accumulator, whose first sample
    may carry any number, and a stream with at least one sample before the
    gap (such as 0, 1, 2, 6, 7): the in-order part leaves [lost_count = 0],
    the whole stream leaves [lost_count = k] and the one loss event. *)
Theorem scan_single_gap_lost_count :
  forall (sink : EventsLogger.t) (k : N) (before after : list (Header.t * Time)),
    0 < k ->
    after <> [] ->
    (forall tr : t,
       count tr <> 0 ->
       consecutive_from (expected_next_tracking_number tr) before ->
       consecutive_from
         (expected_next_tracking_number tr + N.of_nat (List.length before) + k) after ->
       (lost_count (fst (scan_all before sink tr)) = lost_count tr
        /\ snd (scan_all before sink tr) = sink)
       /\ (lost_count (fst (scan_all (before ++ after) sink tr)) = lost_count tr + k
           /\ snd (scan_all (before ++ after) sink tr) = sink ++ [loss_event tr k]))
    /\ (forall (node topic : string) (opts : TrackingOptions) (first : N),
          before <> [] ->
          consecutive_from first before ->
          consecutive_from (first + N.of_nat (List.length before) + k) after ->
          let tr := new node topic opts in
          (lost_count (fst (scan_all before sink tr)) = 0
           /\ snd (scan_all before sink tr) = sink)
          /\ (lost_count (fst (scan_all (before ++ after) sink tr)) = k
              /\ snd (scan_all (before ++ after) sink tr) = sink ++ [loss_event tr k])).
Proof.
  intros sink k before after Hk Ha. split.
  - intros tr Hseen Hbefore Hafter.
    apply scan_gap_after_samples; assumption.
  - intros node topic opts first Hb Hbefore Hafter tr.
    destruct before as [ | [h now] rest]; [ congruence | ].
    apply consecutive_from_cons in Hbefore. destruct Hbefore as [Htn Hrest].
    assert (Hfresh : count tr = 0) by reflexivity.
    destruct (scan_first h now sink tr Hfresh) as (He & Hl & Hs).
    destruct (scan_effect_holds h now sink tr) as [Hcount Hname _].
    assert (Hseen : count (fst (scan h now sink tr)) <> 0) by (rewrite Hcount; lia).
    rewrite <- app_comm_cons, !scan_all_cons.
    destruct (scan_gap_after_samples (fst (scan h now sink tr))
                (snd (scan h now sink tr)) k rest after Hseen Hk Ha)
      as ((Hin_lost & Hin_sink) & (Hlost & Hsink)).
    { rewrite He, Htn. exact Hrest. }
    { rewrite He, Htn.
      replace (first + 1 + N.of_nat (List.length rest) + k)
        with (first + N.of_nat (List.length ((h, now) :: rest)) + k)
        by (simpl List.length; lia).
      exact Hafter. }
    rewrite Hin_lost, Hin_sink, Hlost, Hsink, Hl, Hs.
    split; [ split; reflexivity | split; [ reflexivity | ] ].
    unfold loss_event. rewrite Hname. reflexivity.
Qed.

Lemma scan_single_gap_lost_count_witness :
  let tr := new "node_1" "topic" DefaultOptions in
  (lost_count (fst (scan_all (map Scenario.sample [0; 1; 2]) [] tr)) = 0
   /\ snd (scan_all (map Scenario.sample [0; 1; 2]) [] tr) = [])
  /\ (lost_count (fst (scan_all (map Scenario.sample [0; 1; 2] ++ map Scenario.sample [6; 7]) [] tr)) = 3
      /\ snd (scan_all (map Scenario.sample [0; 1; 2] ++ map Scenario.sample [6; 7]) [] tr)
         = [] ++ [loss_event tr 3]).
Proof.
  assert (Hk : 0 < 3) by reflexivity.
  assert (Ha : map Scenario.sample [6; 7] <> []) by discriminate.
  apply (proj2 (scan_single_gap_lost_count [] 3 (map Scenario.sample [0; 1; 2])
                  (map Scenario.sample [6; 7]) Hk Ha)
           "node_1" "topic" DefaultOptions 0).
  - discriminate.
  - reflexivity.
  - reflexivity.
Defined.

(** C7.  Over the lifetime of an accumulator, from its construction on and
    through whatever is scanned, neither [expected_next_tracking_number] nor
    [lost_count] ever decreases: they are at least as large after any
    further samples [more] (one scan or many) as after the [history]. *)
Theorem scan_counters_monotone :
  forall (node topic : string) (opts : TrackingOptions) (sink : EventsLogger.t)
         (history more : list (Header.t * Time)),
    let earlier := fst (scan_all history sink (new node topic opts)) in
    let later := fst (scan_all (history ++ more) sink (new node topic opts)) in
    expected_next_tracking_number earlier <= expected_next_tracking_number later
    /\ lost_count earlier <= lost_count later.
Proof.
  intros node topic opts sink history more earlier later.
  subst earlier later. rewrite scan_all_app.
  apply scan_all_monotone, scan_all_keeps_invariant.
  intros _. reflexivity.
Qed.

End TrackerClaims.

(* ================================================================== *)
(** * Properties of the maps *)

Module StdMapFacts.
Import StdMap.

Section WithValues.
Context {V : Type}.
Implicit Types (m : t V) (k : string) (v : V).

Lemma compare_refl k : String_as_OT.compare k k = Eq.
Proof.
  destruct (String_as_OT.compare_spec k k) as [ _ | H | H ];
    [ reflexivity | | ]; exfalso; revert H; apply irreflexivity.
Qed.

Lemma compare_eq k k' : String_as_OT.compare k k' = Eq -> k = k'.
Proof.
  destruct (String_as_OT.compare_spec k k'); [ auto | discriminate | discriminate ].
Qed.

Lemma compare_lt k k' : String_as_OT.compare k k' = Lt -> String_as_OT.lt k k'.
Proof. auto. Qed.

Lemma compare_gt k k' : String_as_OT.compare k k' = Gt -> String_as_OT.lt k' k.
Proof.
  destruct (String_as_OT.compare_spec k k'); [ discriminate | discriminate | auto ].
Qed.

Lemma lt_neq k k' : String_as_OT.lt k k' -> k <> k'.
Proof. intros H ->. revert H. apply irreflexivity. Qed.

Lemma keys_insert k v m :
  forall k', In k' (keys (insert k v m)) <-> k' = k \/ In k' (keys m).
Proof.
  induction m as [ | [k0 v0] m IH]; intros k'; simpl.
  - intuition.
  - destruct (String_as_OT.compare k k0) eqn:Hcmp; simpl.
    + apply compare_eq in Hcmp. subst k0. intuition.
    + intuition.
    + rewrite IH. intuition.
Qed.

Lemma wf_insert k v m : wf m -> wf (insert k v m).
Proof.
  unfold wf. induction m as [ | [k0 v0] m IH]; intros Hwf; simpl.
  - repeat constructor.
  - inversion Hwf as [ | ? ? Hsorted Hall]; subst.
    destruct (String_as_OT.compare k k0) eqn:Hcmp; simpl.
    + exact Hwf.
    + constructor; [ exact Hwf | ].
      constructor; [ exact Hcmp | ].
      apply Forall_forall. intros x Hx.
      rewrite Forall_forall in Hall.
      transitivity k0; [ exact Hcmp | auto ].
    + constructor; [ apply IH; exact Hsorted | ].
      apply Forall_forall. intros x Hx.
      apply keys_insert in Hx. destruct Hx as [-> | Hx].
      * apply compare_gt; exact Hcmp.
      * rewrite Forall_forall in Hall. auto.
Qed.

Lemma wf_NoDup m : wf m -> NoDup (keys m).
Proof.
  unfold wf. induction 1 as [ | k ks Hsorted IH Hall]; constructor; auto.
  intros Hin. rewrite Forall_forall in Hall.
  apply (lt_neq k k); auto.
Qed.

Lemma keys_assign k v m : keys (assign k v m) = keys m.
Proof.
  induction m as [ | [k0 v0] m IH]; simpl; [ reflexivity | ].
  destruct (String.eqb k k0); simpl; [ reflexivity | ].
  f_equal. exact IH.
Qed.

Lemma length_assign k v m : List.length (assign k v m) = List.length m.
Proof.
  induction m as [ | [k0 v0] m IH]; simpl; [ reflexivity | ].
  destruct (String.eqb k k0); simpl; congruence.
Qed.

Lemma wf_assign k v m : wf m -> wf (assign k v m).
Proof. unfold wf. rewrite keys_assign. auto. Qed.

Lemma at_assign k v v0 m : at_ k m = Some v0 -> at_ k (assign k v m) = Some v.
Proof.
  induction m as [ | [k0 v1] m IH]; simpl; [ discriminate | ].
  destruct (String.eqb k k0) eqn:Heq; simpl; rewrite Heq; auto.
Qed.

Lemma at_assign_other k k' v m : k' <> k -> at_ k' (assign k v m) = at_ k' m.
Proof.
  intros Hne. induction m as [ | [k0 v1] m IH]; simpl; [ reflexivity | ].
  destruct (String.eqb k k0) eqn:Heq; simpl.
  - apply String.eqb_eq in Heq. subst k0.
    destruct (String.eqb k' k) eqn:Heq'; [ | reflexivity ].
    apply String.eqb_eq in Heq'. contradiction.
  - rewrite IH. reflexivity.
Qed.

Lemma at_In k v m : at_ k m = Some v -> In (k, v) m.
Proof.
  induction m as [ | [k0 v0] m IH]; simpl; [ discriminate | ].
  destruct (String.eqb k k0) eqn:Heq.
  - apply String.eqb_eq in Heq. intros [= ->]. left. congruence.
  - auto.
Qed.

Lemma In_at k v m : wf m -> In (k, v) m -> at_ k m = Some v.
Proof.
  intros Hwf. apply wf_NoDup in Hwf. unfold keys in Hwf.
  induction m as [ | [k0 v0] m IH]; simpl; [ contradiction | ].
  inversion Hwf as [ | ? ? Hnotin Hnodup]; subst.
  intros [[= -> ->] | Hin].
  - rewrite String.eqb_refl. reflexivity.
  - destruct (String.eqb k k0) eqn:Heq; [ | auto ].
    apply String.eqb_eq in Heq. subst k0. exfalso. apply Hnotin.
    change k with (fst (k, v)). apply in_map. exact Hin.
Qed.

(** [insert] adds the element when the key is new ... *)
Lemma at_insert_new k v m : at_ k m = None -> at_ k (insert k v m) = Some v.
Proof.
  induction m as [ | [k0 v0] m IH]; simpl.
  - rewrite String.eqb_refl. reflexivity.
  - destruct (String.eqb k k0) eqn:Heq; [ discriminate | ].
    intros Hnone.
    destruct (String_as_OT.compare k k0) eqn:Hcmp; simpl.
    + apply compare_eq in Hcmp. apply String.eqb_neq in Heq. contradiction.
    + rewrite String.eqb_refl. reflexivity.
    + rewrite Heq. auto.
Qed.

(** ... and leaves the container as it is when the key is present. *)
Lemma insert_present k v v0 m : wf m -> at_ k m = Some v0 -> insert k v m = m.
Proof.
  unfold wf. induction m as [ | [k0 v1] m IH]; simpl; [ discriminate | ].
  intros Hwf. inversion Hwf as [ | ? ? Hsorted Hall]; subst.
  destruct (String.eqb k k0) eqn:Heq.
  - apply String.eqb_eq in Heq. subst k0. rewrite compare_refl. reflexivity.
  - intros Hat.
    assert (Hlt : String_as_OT.lt k0 k).
    { rewrite Forall_forall in Hall. apply Hall.
      change k with (fst (k, v0)). apply in_map, at_In. exact Hat. }
    destruct (String_as_OT.compare k k0) eqn:Hcmp.
    + reflexivity.
    + exfalso. apply (lt_neq k k); [ | reflexivity ].
      transitivity k0; assumption.
    + f_equal. apply IH; assumption.
Qed.

Lemma fold_push {A B : Type} (f : A -> B) (l : list A) : forall acc,
  fold_left (fun acc x => acc ++ [f x]) l acc = acc ++ map f l.
Proof.
  induction l as [ | x l IH]; intros acc; simpl.
  - rewrite app_nil_r. reflexivity.
  - rewrite IH, <- app_assoc. reflexivity.
Qed.

End WithValues.
End StdMapFacts.

(* ================================================================== *)
(** * Properties of the performance node *)

Module NodeFacts.
Import PerformanceNodeBase StdMapFacts.

Lemma new_well_formed name executor_id : well_formed (new name executor_id).
Proof. repeat split; constructor. Qed.

Lemma add_subscriber_well_formed topic msg_pass_by opts qos n :
  well_formed n -> well_formed (add_subscriber topic msg_pass_by opts qos n).
Proof.
  intros (Hp & Hs & Hc & Hv). repeat split; simpl; auto using wf_insert.
Qed.

Lemma add_publisher_well_formed topic qos n :
  well_formed n -> well_formed (add_publisher topic qos n).
Proof.
  intros (Hp & Hs & Hc & Hv). repeat split; simpl; auto using wf_insert.
Qed.

Lemma add_server_well_formed service qos n :
  well_formed n -> well_formed (add_server service qos n).
Proof.
  intros (Hp & Hs & Hc & Hv). repeat split; simpl; auto using wf_insert.
Qed.

Lemma add_client_well_formed service qos n :
  well_formed n -> well_formed (add_client service qos n).
Proof.
  intros (Hp & Hs & Hc & Hv). repeat split; simpl; auto using wf_insert.
Qed.

Lemma add_periodic_publisher_well_formed topic period msg_pass_by qos size n :
  well_formed n ->
  well_formed (add_periodic_publisher topic period msg_pass_by qos size n).
Proof.
  intros Hwf. apply (add_publisher_well_formed topic qos) in Hwf.
  exact Hwf.
Qed.

Lemma add_periodic_client_well_formed service period qos size n :
  well_formed n ->
  well_formed (state_of (add_periodic_client service period qos size n)).
Proof.
  intros Hwf. apply (add_client_well_formed service qos) in Hwf.
  unfold add_periodic_client.
  destruct (StdMap.at_ (service_name service) (_clients (add_client service qos n)))
    as [[[client tracker] tn] | ]; [ | exact Hwf ].
  destruct (period =? 0)%Z; [ exact Hwf | ].
  destruct Hwf as (Hp & Hs & Hc & Hv).
  repeat split; simpl; auto using wf_assign.
Qed.

(** Publishers and servers do not enter [all_trackers]. *)
Lemma all_trackers_add_publisher topic qos n :
  all_trackers (add_publisher topic qos n) = all_trackers n.
Proof. reflexivity. Qed.

Lemma all_trackers_add_server service qos n :
  all_trackers (add_server service qos n) = all_trackers n.
Proof. reflexivity. Qed.

Lemma all_trackers_eq n :
  all_trackers n
  = map (fun sub => (fst sub, snd (snd sub))) (_subs n)
    ++ map (fun client => (fst client, snd (fst (snd client)))) (_clients n).
Proof. unfold all_trackers. rewrite !fold_push. reflexivity. Qed.

Lemma pub_trackers_eq n :
  pub_trackers n = map (fun pub => (fst pub, snd (snd pub))) (_pubs n).
Proof. unfold pub_trackers. rewrite fold_push. reflexivity. Qed.

(** The pairs listed for a container are its entries, by name. *)
Lemma in_pair_trackers {H : Type} (m : StdMap.t (H * Tracker.t)) name tr :
  StdMap.wf m ->
  In (name, tr) (map (fun e => (fst e, snd (snd e))) m)
  <-> exists handle, StdMap.at_ name m = Some (handle, tr).
Proof.
  intros Hwf. rewrite in_map_iff. split.
  - intros ([k [handle tr0]] & [= <- <-] & Hin).
    exists handle. apply In_at; assumption.
  - intros (handle & Hat). exists (name, (handle, tr)). split; [ reflexivity | ].
    apply at_In. exact Hat.
Qed.

Lemma in_client_trackers
    (m : StdMap.t (Client * Tracker.t * Tracker.TrackingNumber)) name tr :
  StdMap.wf m ->
  In (name, tr) (map (fun e => (fst e, snd (fst (snd e)))) m)
  <-> exists client tn, StdMap.at_ name m = Some (client, tr, tn).
Proof.
  intros Hwf. rewrite in_map_iff. split.
  - intros ([k [[client tr0] tn]] & [= <- <-] & Hin).
    exists client, tn. apply In_at; assumption.
  - intros (client & tn & Hat). exists (name, (client, tr, tn)).
    split; [ reflexivity | ]. apply at_In. exact Hat.
Qed.

(** [_topic_callback] is one [scan] of the subscriber's tracker, the events
    going to the logger of the node. *)
Lemma topic_callback_scans name msg now n sub tracker log :
  StdMap.at_ name (_subs n) = Some (sub, tracker) ->
  _events_logger n = Some log ->
  exists n',
    _topic_callback name msg now n = Returned n'
    /\ StdMap.at_ name (_subs n')
       = Some (sub, fst (Tracker.scan (header msg) now log tracker))
    /\ _events_logger n' = Some (snd (Tracker.scan (header msg) now log tracker)).
Proof.
  intros Hat Hlog. unfold _topic_callback, scan_with_logger. rewrite Hat, Hlog.
  destruct (Tracker.scan (header msg) now log tracker) as [tracker' log'].
  eexists. split; [ reflexivity | ]. split; [ | reflexivity ].
  simpl. eapply at_assign. exact Hat.
Qed.

End NodeFacts.

Module NodeClaims.
Import PerformanceNodeBase StdMapFacts NodeFacts.

(** C9.  [all_trackers] lists the subscribers, in the order of [_subs],
    followed by the clients, in the order of [_clients]: one pair per
    entry, under the entry's name and with the entry's tracker, no name
    twice within either group.  The result does not depend on [_pubs] or
    [_servers]; the publishers' trackers are what [pub_trackers] lists. *)
Theorem all_trackers_subscribers_then_clients :
  forall n : t,
    well_formed n ->
    let subs := map (fun sub => (fst sub, snd (snd sub))) (_subs n) in
    let clients := map (fun client => (fst client, snd (fst (snd client)))) (_clients n) in
    all_trackers n = subs ++ clients
    /\ (map fst subs = StdMap.keys (_subs n) /\ NoDup (map fst subs))
    /\ (map fst clients = StdMap.keys (_clients n) /\ NoDup (map fst clients))
    /\ (forall name tr,
          In (name, tr) subs
          <-> exists sub, StdMap.at_ name (_subs n) = Some (sub, tr))
    /\ (forall name tr,
          In (name, tr) clients
          <-> exists client tn, StdMap.at_ name (_clients n) = Some (client, tr, tn))
    /\ (forall pubs servers,
          all_trackers (with_pubs pubs (with_servers servers n)) = all_trackers n)
    /\ (forall name tr,
          In (name, tr) (pub_trackers n)
          <-> exists pub, StdMap.at_ name (_pubs n) = Some (pub, tr)).
Proof.
  intros n (Hp & Hs & Hc & Hv) subs clients.
  assert (Hks : map fst subs = StdMap.keys (_subs n)).
  { subst subs. rewrite map_map. reflexivity. }
  assert (Hkc : map fst clients = StdMap.keys (_clients n)).
  { subst clients. rewrite map_map. reflexivity. }
  split; [ apply all_trackers_eq | ].
  split; [ split; [ exact Hks | rewrite Hks; apply wf_NoDup, Hs ] | ].
  split; [ split; [ exact Hkc | rewrite Hkc; apply wf_NoDup, Hc ] | ].
  split; [ intros name tr; apply in_pair_trackers, Hs | ].
  split; [ intros name tr; apply in_client_trackers, Hc | ].
  split; [ reflexivity | ].
  intros name tr. rewrite pub_trackers_eq. apply in_pair_trackers, Hp.
Qed.

Lemma all_trackers_subscribers_then_clients_witness :
  well_formed Scenario.wired_node
  /\ map fst (all_trackers Scenario.wired_node) = ["danube"; "salween"; "srv"]
  /\ map fst (pub_trackers Scenario.wired_node) = ["missouri"].
Proof.
  assert (Hwf : well_formed Scenario.wired_node).
  { apply add_periodic_client_well_formed, add_server_well_formed,
      add_periodic_publisher_well_formed, add_subscriber_well_formed,
      add_subscriber_well_formed, new_well_formed. }
  split; [ exact Hwf | ].
  destruct (all_trackers_subscribers_then_clients Scenario.wired_node Hwf)
    as (Hall & _).
  rewrite Hall. split; reflexivity.
Defined.

Lemma scan_tracker_any_sink h now sink sink' tr :
  fst (Tracker.scan h now sink tr) = fst (Tracker.scan h now sink' tr).
Proof.
  unfold Tracker.scan.
  destruct (Tracker.count tr =? 0);
    [ | destruct (Tracker.expected_next_tracking_number tr <=? Header.tracking_number h);
        [ destruct (0 <? Header.tracking_number h
                          - Tracker.expected_next_tracking_number tr) | ] ];
    reflexivity.
Qed.

Lemma scan_with_logger_tracker logger h now tr :
  fst (scan_with_logger logger h now tr) = fst (Tracker.scan h now [] tr).
Proof.
  unfold scan_with_logger. destruct logger as [log | ]; [ | reflexivity ].
  rewrite (scan_tracker_any_sink h now [] log tr).
  destruct (Tracker.scan h now log tr). reflexivity.
Qed.



End NodeClaims.

(* ================================================================== *)
(** * Properties of the clients *)

Module ClientClaims.
Import PerformanceNodeBase StdMapFacts.

Lemma request_while_locked name size ready_in now n :
  _client_lock n = true -> _request name size ready_in now n = Returned n.
Proof. intros Hlock. unfold _request. rewrite Hlock. reflexivity. Qed.

Lemma request_unavailable name size ready_in now n client tracker tn :
  _client_lock n = false ->
  StdMap.at_ name (_clients n) = Some (client, tracker, tn) ->
  wait_for_service ready_in one_second = false ->
  _request name size ready_in now n
  = Returned
      (with_events_logger
         (match _events_logger n with
          | Some log =>
              Some (EventsLogger.write_event (service_unavailable_event name n) log)
          | None => None
          end) n).
Proof.
  intros Hlock Hat Hwait. unfold _request. rewrite Hlock. cbv zeta.
  simpl _clients. rewrite Hat, Hwait. simpl negb. cbv iota.
  simpl _events_logger.
  destruct n as [nm ex pubs subs clients servers timers logger lock pubd outs].
  simpl in *. subst lock. destruct logger; reflexivity.
Qed.

Lemma request_available name size ready_in now n client tracker tn :
  _client_lock n = false ->
  StdMap.at_ name (_clients n) = Some (client, tracker, tn) ->
  wait_for_service ready_in one_second = true ->
  _request name size ready_in now n
  = Returned
      (with_clients
         (StdMap.assign name (client, tracker, Tracker.increment tn) (_clients n))
         (with_outstanding
            (outstanding n ++ [(name, Header.mk 0 (Tracker.frequency tracker) tn now)]) n)).
Proof.
  intros Hlock Hat Hwait. unfold _request. rewrite Hlock. cbv zeta.
  simpl _clients. rewrite Hat, Hwait. simpl negb. cbv iota.
  destruct n as [nm ex pubs subs clients servers timers logger lock pubd outs].
  simpl in *. subst lock. reflexivity.
Qed.

(** C2, as the code has it.  While [_client_lock] is set, that is while an
    earlier [_request] of this node has not returned, an invocation is a
    no-op, whichever client it is for.  An invocation that finds the lock
    free returns with the lock free again, on both paths: when the probe of
    one second fails nothing is sent; when it succeeds the request is sent
    asynchronously and joins the outstanding ones, however many there are,
    and the tracking number of the client advances (by one, in the arithmetic
    of [Tracker::TrackingNumber]). *)
Theorem request_lock_policy :
  forall (n : t) (name : string) (size : N) (ready_in : option Z) (now : Time),
    (_client_lock n = true -> _request name size ready_in now n = Returned n)
    /\ (forall client tracker tn,
          _client_lock n = false ->
          StdMap.at_ name (_clients n) = Some (client, tracker, tn) ->
          exists n',
            _request name size ready_in now n = Returned n'
            /\ _client_lock n' = false
            /\ (wait_for_service ready_in one_second = false ->
                  outstanding n' = outstanding n /\ _clients n' = _clients n)
            /\ (wait_for_service ready_in one_second = true ->
                  outstanding n' = outstanding n ++ [(name, Header.mk 0 (Tracker.frequency tracker) tn now)]
                  /\ StdMap.at_ name (_clients n')
                     = Some (client, tracker, Tracker.increment tn))).
Proof.
  intros n name size ready_in now. split.
  - apply request_while_locked.
  - intros client tracker tn Hlock Hat.
    destruct (wait_for_service ready_in one_second) eqn:Hwait.
    + rewrite (request_available name size ready_in now n client tracker tn Hlock Hat Hwait).
      eexists. split; [ reflexivity | ].
      split; [ exact Hlock | ].
      split; [ discriminate | ].
      intros _. split; [ reflexivity | ].
      simpl. eapply at_assign. exact Hat.
    + rewrite (request_unavailable name size ready_in now n client tracker tn Hlock Hat Hwait).
      eexists. split; [ reflexivity | ].
      split; [ exact Hlock | ].
      split; [ intros _; split; reflexivity | discriminate ].
Qed.

Lemma request_lock_policy_witness :
  exists n',
    _request "srv" 0 (Some 5000000%Z) 100%Z Scenario.wired_node = Returned n'
    /\ _client_lock n' = false
    /\ (wait_for_service (Some 5000000%Z) one_second = false ->
          outstanding n' = outstanding Scenario.wired_node
          /\ _clients n' = _clients Scenario.wired_node)
    /\ (wait_for_service (Some 5000000%Z) one_second = true ->
          outstanding n'
          = outstanding Scenario.wired_node ++ [("srv", Header.mk 0 100%float 0 100%Z)]
          /\ StdMap.at_ "srv" (_clients n')
             = Some (mkClient "srv" rmw_qos_profile_default,
                     Tracker.set_frequency 100%float
                       (Tracker.new "node_1" "srv" Tracker.DefaultOptions),
                     1)).
Proof.
  apply (proj2 (request_lock_policy Scenario.wired_node "srv" 0 (Some 5000000%Z) 100%Z)
           (mkClient "srv" rmw_qos_profile_default)
           (Tracker.set_frequency 100%float
              (Tracker.new "node_1" "srv" Tracker.DefaultOptions)) 0).
  - reflexivity.
  - reflexivity.
Defined.

(** C2, as stated, fails: the lock is released as soon as the request is
    sent, so the next cycle sends a second request while the first is still
    outstanding. *)
Lemma request_two_outstanding :
  let n1 := state_of (_request "srv" 0 (Some 5000000%Z) 100%Z Scenario.wired_node) in
  let n2 := state_of (_request "srv" 0 (Some 5000000%Z) 10000100%Z n1) in
  (outstanding_of "srv" n1 = [Header.mk 0 100%float 0 100%Z]
   /\ _client_lock n1 = false)
  /\ _request "srv" 0 (Some 5000000%Z) 10000100%Z n1 = Returned n2
  /\ outstanding_of "srv" n2
     = [Header.mk 0 100%float 0 100%Z; Header.mk 0 100%float 1 10000100%Z].
Proof. vm_compute. repeat split. Qed.

(** C3, as the code has it.  With an events logger attached and the lock
    free, a cycle whose probe fails writes one [service_unavailable] event,
    sends nothing, leaves the client as it was and the lock free; the next
    such cycle writes the event again. *)
Theorem unreachable_server_cycle :
  forall (n : t) (name : string) (size : N) (ready_in ready_in' : option Z)
         (now now' : Time) (client : Client) (tracker : Tracker.t)
         (tn : Tracker.TrackingNumber) (log : EventsLogger.t),
    _events_logger n = Some log ->
    _client_lock n = false ->
    StdMap.at_ name (_clients n) = Some (client, tracker, tn) ->
    wait_for_service ready_in one_second = false ->
    wait_for_service ready_in' one_second = false ->
    exists n1 n2,
      (_request name size ready_in now n = Returned n1
       /\ _events_logger n1 = Some (log ++ [service_unavailable_event name n])
       /\ outstanding n1 = outstanding n
       /\ _clients n1 = _clients n
       /\ _client_lock n1 = false)
      /\ (_request name size ready_in' now' n1 = Returned n2
          /\ _events_logger n2
             = Some ((log ++ [service_unavailable_event name n])
                       ++ [service_unavailable_event name n])
          /\ outstanding n2 = outstanding n
          /\ _clients n2 = _clients n
          /\ _client_lock n2 = false).
Proof.
  intros n name size ready_in ready_in' now now' client tracker tn log
         Hlog Hlock Hat Hwait Hwait'.
  eexists _, _. split.
  - rewrite (request_unavailable name size ready_in now n client tracker tn Hlock Hat Hwait).
    rewrite Hlog.
    split; [ reflexivity | ]. repeat split; assumption.
  - rewrite (request_unavailable name size ready_in' now' _ client tracker tn);
      [ | exact Hlock | exact Hat | exact Hwait' ].
    split; [ reflexivity | ]. repeat split; assumption.
Qed.

Lemma unreachable_server_cycle_witness :
  exists n1 n2,
    (_request "srv" 0 None 100%Z Scenario.logged_node = Returned n1
     /\ _events_logger n1
        = Some ([] ++ [service_unavailable_event "srv" Scenario.logged_node])
     /\ outstanding n1 = outstanding Scenario.logged_node
     /\ _clients n1 = _clients Scenario.logged_node
     /\ _client_lock n1 = false)
    /\ (_request "srv" 0 (Some 2000000000%Z) 10000100%Z n1 = Returned n2
        /\ _events_logger n2
           = Some (([] ++ [service_unavailable_event "srv" Scenario.logged_node])
                     ++ [service_unavailable_event "srv" Scenario.logged_node])
        /\ outstanding n2 = outstanding Scenario.logged_node
        /\ _clients n2 = _clients Scenario.logged_node
        /\ _client_lock n2 = false).
Proof.
  apply (unreachable_server_cycle Scenario.logged_node "srv" 0 None
           (Some 2000000000%Z) 100%Z 10000100%Z
           (mkClient "srv" rmw_qos_profile_default)
           (Tracker.set_frequency 100%float
              (Tracker.new "node_1" "srv" Tracker.DefaultOptions)) 0 []).
  - reflexivity.
  - reflexivity.
  - reflexivity.
  - reflexivity.
  - reflexivity.
Defined.

(** C3, as stated, fails on a node without events logger: the cycle is
    skipped and the lock released, but no event is written anywhere. *)
Lemma unreachable_server_no_logger :
  let n1 := state_of (_request "srv" 0 None 100%Z Scenario.wired_node) in
  _request "srv" 0 None 100%Z Scenario.wired_node = Returned n1
  /\ _events_logger Scenario.wired_node = None
  /\ _events_logger n1 = None
  /\ outstanding n1 = []
  /\ _client_lock n1 = false.
Proof. vm_compute. repeat split. Qed.

End ClientClaims.

(* ================================================================== *)
(** * Properties of the publishers *)

Module PublishFacts.
Import StdMapFacts.

Lemma length_vector_resize v size :
  N.of_nat (List.length (vector_resize v size)) = size.
Proof.
  unfold vector_resize. rewrite length_app, length_firstn, repeat_length. lia.
Qed.

(** One firing of the publisher timer. *)
Lemma publish_effect Msg name msg_pass_by size period publish_time end_time n pub tr :
  StdMap.at_ name (PerformanceNodeBase._pubs n) = Some (pub, tr) ->
  exists n' tr' msg,
    PerformanceNodeBase._publish Msg name msg_pass_by size period
      publish_time end_time n = Returned n'
    /\ StdMap.at_ name (PerformanceNodeBase._pubs n') = Some (pub, tr')
    /\ Tracker.expected_next_tracking_number tr'
       = Tracker.increment (Tracker.expected_next_tracking_number tr)
    /\ PerformanceNodeBase.published n'
       = PerformanceNodeBase.published n ++ [(name, msg_pass_by, msg)]
    /\ Header.tracking_number (PerformanceNodeBase.header msg)
       = Tracker.expected_next_tracking_number tr
    /\ (PerformanceNodeBase.data msg, Header.size (PerformanceNodeBase.header msg))
       = PerformanceNodeBase.resize_msg (default_data Msg) size
    /\ Tracker.size tr' = Header.size (PerformanceNodeBase.header msg).
Proof.
  intros Hat. unfold PerformanceNodeBase._publish. rewrite Hat.
  unfold Tracker.get_and_update_tracking_number.
  destruct msg_pass_by, Msg; simpl;
    (eexists _, _, _; split; [ reflexivity | ];
     split; [ eapply at_assign; exact Hat | ];
     repeat split).
Qed.

Lemma stamped_app name n n' msg_pass_by msg :
  PerformanceNodeBase.published n'
  = PerformanceNodeBase.published n ++ [(name, msg_pass_by, msg)] ->
  PerformanceNodeBase.stamped name n'
  = PerformanceNodeBase.stamped name n
    ++ [Header.tracking_number (PerformanceNodeBase.header msg)].
Proof.
  intros Hpub. unfold PerformanceNodeBase.stamped.
  rewrite Hpub, filter_app, map_app. simpl.
  rewrite String.eqb_refl. reflexivity.
Qed.

(** The firings of one publisher timer number their messages consecutively
    modulo [2^32] from the counter of the publisher. *)
Lemma publish_times_stamped Msg name msg_pass_by size period clocks :
  forall n pub tr,
    StdMap.at_ name (PerformanceNodeBase._pubs n) = Some (pub, tr) ->
    Tracker.expected_next_tracking_number tr mod 2 ^ 32
    = Tracker.expected_next_tracking_number tr ->
    exists n',
      PerformanceNodeBase.publish_times Msg name msg_pass_by size period clocks n
      = Returned n'
      /\ PerformanceNodeBase.stamped name n'
         = PerformanceNodeBase.stamped name n
           ++ map (fun i =>
                     (Tracker.expected_next_tracking_number tr + N.of_nat i) mod 2 ^ 32)
                  (seq 0 (List.length clocks)).
Proof.
  induction clocks as [ | [publish_time end_time] clocks IH]; intros n pub tr Hat Hsmall.
  - exists n. split; [ reflexivity | ]. simpl. rewrite app_nil_r. reflexivity.
  - destruct (publish_effect Msg name msg_pass_by size period publish_time end_time
                n pub tr Hat)
      as (n1 & tr1 & msg & Hrun & Hat1 & Hnext & Hpub & Htn & _).
    destruct (IH n1 pub tr1 Hat1) as (n' & Hrest & Hstamped).
    { rewrite Hnext. apply TrackerFacts.increment_small. }
    exists n'. simpl PerformanceNodeBase.publish_times. rewrite Hrun.
    split; [ exact Hrest | ].
    rewrite Hstamped, (stamped_app name n n1 msg_pass_by msg Hpub), Htn, Hnext.
    rewrite <- app_assoc. f_equal.
    cbn [List.length]. rewrite TrackerFacts.numbers_from_increment by exact Hsmall.
    reflexivity.
Qed.

Import Mandalay.

Lemma fill_msg_tracking_number msg tn period size name now :
  tracking_number (header (fill_msg msg tn period size name now)) = tn.
Proof. unfold fill_msg, set_msg_size. simpl. destruct (data msg); reflexivity. Qed.

Lemma to_uint32_add_succ tn i :
  to_uint32 (to_uint32 (tn + 1) + Z.of_nat i) = to_uint32 (tn + Z.of_nat (S i)).
Proof.
  unfold to_uint32. rewrite Z.add_mod_idemp_l by lia. f_equal. lia.
Qed.

Lemma tracking_numbers_app msgs msgs' :
  tracking_numbers (msgs ++ msgs') = tracking_numbers msgs ++ tracking_numbers msgs'.
Proof. apply map_app. Qed.

Lemma publish_loop_tracking_numbers MsgType period size name nows :
  forall tn written,
    to_uint32 tn = tn ->
    tracking_numbers (snd (publish_loop MsgType period size name nows tn written))
    = tracking_numbers written
      ++ map (fun i => to_uint32 (tn + Z.of_nat i)) (seq 0 (List.length nows)).
Proof.
  induction nows as [ | now nows IH]; intros tn written Htn.
  - simpl. rewrite app_nil_r. reflexivity.
  - simpl publish_loop. rewrite IH.
    + rewrite tracking_numbers_app. unfold tracking_numbers at 2. cbn [map].
      rewrite fill_msg_tracking_number, <- app_assoc. f_equal.
      simpl List.length. cbn [seq map]. rewrite <- seq_shift, map_map.
      cbn [app Z.of_nat]. rewrite Z.add_0_r, Htn. f_equal.
      apply map_ext. intros i. apply to_uint32_add_succ.
    + unfold to_uint32. apply Z.mod_mod. lia.
Qed.

(** The [i]-th message written by [publish] carries [i] modulo [2^32]. *)
Lemma publish_tracking_numbers MsgType period size name nows :
  tracking_numbers (publish MsgType period size name nows)
  = map (fun i => to_uint32 (Z.of_nat i)) (seq 0 (List.length nows)).
Proof.
  unfold publish. rewrite publish_loop_tracking_numbers by reflexivity.
  reflexivity.
Qed.

End PublishFacts.

Module PublishClaims.
Import StdMapFacts PublishFacts.

(** C4, as the code has it.  On a publisher of a performance node whose
    counter is at 0, the first [2^32] firings of the publisher timer stamp
    the numbers 0, 1, ..., M-1 on the M messages they publish, in that order,
    one per message.  So do the first [2^32] iterations of
    [Mandalay::publish].  Both counters are unsigned 32-bit integers. *)
Theorem publish_stamps_consecutive_tracking_numbers :
  forall (n : PerformanceNodeBase.t) (name : string)
         (pub : PerformanceNodeBase.Publisher) (tr : Tracker.t)
         (Msg : DataT) (msg_pass_by : msg_pass_by_t) (size : N) (period : Z)
         (clocks : list (Time * Time))
         (MsgType : DataT) (mandalay_period : Z) (mandalay_size : N)
         (mandalay_name : string) (nows : list Z),
    StdMap.at_ name (PerformanceNodeBase._pubs n) = Some (pub, tr) ->
    Tracker.expected_next_tracking_number tr = 0 ->
    N.of_nat (List.length clocks) <= 2 ^ 32 ->
    (Z.of_nat (List.length nows) <= 2 ^ 32)%Z ->
    (exists n',
       PerformanceNodeBase.publish_times Msg name msg_pass_by size period clocks n
       = Returned n'
       /\ PerformanceNodeBase.stamped name n'
          = PerformanceNodeBase.stamped name n
            ++ map N.of_nat (seq 0 (List.length clocks)))
    /\ Mandalay.tracking_numbers
         (Mandalay.publish MsgType mandalay_period mandalay_size mandalay_name nows)
       = map Z.of_nat (seq 0 (List.length nows)).
Proof.
  intros n name pub tr Msg msg_pass_by size period clocks
         MsgType mperiod msize mname nows Hat Hzero Hclocks Hlen.
  split.
  - destruct (publish_times_stamped Msg name msg_pass_by size period clocks n pub tr Hat)
      as (n' & Hrun & Hstamped).
    { rewrite Hzero. reflexivity. }
    exists n'. split; [ exact Hrun | ].
    rewrite Hstamped, Hzero. f_equal.
    apply map_ext_in. intros i Hi. apply in_seq in Hi.
    rewrite N.add_0_l. apply N.mod_small. lia.
  - rewrite publish_tracking_numbers.
    apply map_ext_in. intros i Hi. apply in_seq in Hi.
    unfold Mandalay.to_uint32. apply Z.mod_small. lia.
Qed.

Lemma publish_stamps_consecutive_tracking_numbers_witness :
  (exists n',
     PerformanceNodeBase.publish_times vector_uint8 "missouri" PASS_BY_UNIQUE_PTR
       64 10000 [(0, 40000); (10000000, 10030000); (20000000, 20050000)]%Z
       Scenario.wired_node
     = Returned n'
     /\ PerformanceNodeBase.stamped "missouri" n'
        = PerformanceNodeBase.stamped "missouri" Scenario.wired_node
          ++ map N.of_nat (seq 0 3))
  /\ Mandalay.tracking_numbers
       (Mandalay.publish vector_uint8 100 10000 "missouri" [5; 100000005; 200000005]%Z)
     = map Z.of_nat (seq 0 3).
Proof.
  apply (publish_stamps_consecutive_tracking_numbers Scenario.wired_node "missouri"
           (PerformanceNodeBase.mkPublisher "missouri" rmw_qos_profile_default)
           (Tracker.new "node_1" "missouri" Tracker.DefaultOptions)
           vector_uint8 PASS_BY_UNIQUE_PTR 64 10000%Z
           [(0, 40000); (10000000, 10030000); (20000000, 20050000)]%Z
           vector_uint8 100%Z 10000 "missouri" [5; 100000005; 200000005]%Z).
  - reflexivity.
  - reflexivity.
  - discriminate.
  - discriminate.
Defined.

(** C4, as stated, fails once [Mandalay::publish] has written [2^32]
    messages: the counter wraps and message number [2^32 + 1] carries 0,
    not [2^32]. *)
Lemma mandalay_tracking_number_wraps :
  nth_error
    (Mandalay.tracking_numbers
       (Mandalay.publish vector_uint8 100 10000 "missouri"
          (repeat 0%Z (N.to_nat 4294967297))))
    (N.to_nat 4294967296)
  = Some 0%Z
  /\ 0%Z <> 4294967296%Z.
Proof.
  split; [ | discriminate ].
  rewrite publish_tracking_numbers, repeat_length, nth_error_map, nth_error_seq.
  assert (Hlt : Nat.ltb (N.to_nat 4294967296) (N.to_nat 4294967297) = true).
  { change 4294967297 with (N.succ 4294967296). rewrite N2Nat.inj_succ.
    apply Nat.ltb_lt, Nat.lt_succ_diag_r. }
  rewrite Hlt. cbn [option_map Nat.add].
  rewrite N_nat_Z. reflexivity.
Qed.

(** C5, as the code has it.  [resize_msg] of the performance node resizes
    a byte vector to exactly the hint and returns the hint, and for a
    fixed-layout payload ignores the hint and returns [sizeof(data)]; the
    header of the published message and the tracker report that value.
    [Mandalay::set_msg_size] resizes a byte vector in the same way, and
    writes the hint to the header for either kind of payload. *)
Theorem payload_size_reporting :
  forall (v : list Byte.byte) (sizeof_data hint : N) (h : Mandalay.Header),
    (PerformanceNodeBase.resize_msg (vector_data v) hint
     = (vector_data (vector_resize v hint), hint)
     /\ N.of_nat (List.length (vector_resize v hint)) = hint)
    /\ PerformanceNodeBase.resize_msg (fixed_data sizeof_data) hint
       = (fixed_data sizeof_data, sizeof_data)
    /\ (forall Msg n name pub tr msg_pass_by period publish_time end_time,
          StdMap.at_ name (PerformanceNodeBase._pubs n) = Some (pub, tr) ->
          exists n' tr' msg,
            PerformanceNodeBase._publish Msg name msg_pass_by hint period
              publish_time end_time n = Returned n'
            /\ PerformanceNodeBase.published n'
               = PerformanceNodeBase.published n ++ [(name, msg_pass_by, msg)]
            /\ StdMap.at_ name (PerformanceNodeBase._pubs n') = Some (pub, tr')
            /\ Tracker.size tr' = Header.size (PerformanceNodeBase.header msg)
            /\ match Msg with
               | vector_uint8 =>
                   PerformanceNodeBase.data msg
                   = vector_data (repeat Byte.x00 (N.to_nat hint))
                   /\ Header.size (PerformanceNodeBase.header msg) = hint
               | fixed_layout fixed_size =>
                   PerformanceNodeBase.data msg = fixed_data fixed_size
                   /\ Header.size (PerformanceNodeBase.header msg) = fixed_size
               end)
    /\ Mandalay.set_msg_size (Mandalay.mkMessage h (vector_data v)) hint
       = Mandalay.mkMessage (Mandalay.with_size hint h)
           (vector_data (vector_resize v hint))
    /\ Mandalay.set_msg_size (Mandalay.mkMessage h (fixed_data sizeof_data)) hint
       = Mandalay.mkMessage (Mandalay.with_size hint h) (fixed_data sizeof_data).
Proof.
  intros v sizeof_data hint h.
  split; [ split; [ reflexivity | apply length_vector_resize ] | ].
  split; [ reflexivity | ].
  split; [ | split; reflexivity ].
  intros Msg n name pub tr msg_pass_by period publish_time end_time Hat.
  destruct (publish_effect Msg name msg_pass_by hint period publish_time end_time
              n pub tr Hat)
    as (n' & tr' & msg & Hrun & Hat' & _ & Hpub & _ & Hresize & Hsize).
  exists n', tr', msg.
  repeat (split; [ assumption | ]).
  destruct Msg as [ | fixed_size]; simpl in Hresize;
    injection Hresize as Hdata Hhdr; split; try assumption.
  rewrite Hdata. unfold vector_resize. rewrite firstn_nil, Nat.sub_0_r. reflexivity.
Qed.

Lemma payload_size_reporting_witness :
  exists n' tr' msg,
    PerformanceNodeBase._publish vector_uint8 "missouri" PASS_BY_UNIQUE_PTR 64
      10000%Z 0%Z 40000%Z Scenario.wired_node = Returned n'
    /\ PerformanceNodeBase.published n'
       = PerformanceNodeBase.published Scenario.wired_node
         ++ [("missouri", PASS_BY_UNIQUE_PTR, msg)]
    /\ StdMap.at_ "missouri" (PerformanceNodeBase._pubs n')
       = Some (PerformanceNodeBase.mkPublisher "missouri" rmw_qos_profile_default, tr')
    /\ Tracker.size tr' = Header.size (PerformanceNodeBase.header msg)
    /\ (PerformanceNodeBase.data msg = vector_data (repeat Byte.x00 (N.to_nat 64))
        /\ Header.size (PerformanceNodeBase.header msg) = 64).
Proof.
  apply (proj1 (proj2 (proj2 (payload_size_reporting [] 8 64
                                (Mandalay.mkHeader 0 0%float 0 0 0))))
           vector_uint8 Scenario.wired_node "missouri"
           (PerformanceNodeBase.mkPublisher "missouri" rmw_qos_profile_default)
           (Tracker.new "node_1" "missouri" Tracker.DefaultOptions)
           PASS_BY_UNIQUE_PTR 10000%Z 0%Z 40000%Z).
  reflexivity.
Defined.

(** C5, as stated, fails in [Mandalay::fill_msg] for a fixed-layout
    payload: the header reports the hint, not the fixed size. *)
Lemma mandalay_fixed_payload_reports_hint :
  let msg :=
    Mandalay.fill_msg (Mandalay.default_msg (fixed_layout 8)) 0 100 10000 "danube" 5 in
  Mandalay.data msg = fixed_data 8
  /\ Mandalay.size (Mandalay.header msg) = 10000
  /\ 10000 <> 8.
Proof. split; [ reflexivity | split; [ reflexivity | discriminate ] ]. Qed.

End PublishClaims.

(* ================================================================== *)
(** * Properties of the factory *)

Module FactoryFacts.
Import TemplateFactory.

Lemma to_int_not_nil z : Z.to_int z <> Decimal.Pos Decimal.Nil
                         /\ Z.to_int z <> Decimal.Neg Decimal.Nil.
Proof.
  destruct z as [ | p | p]; simpl; split; try discriminate;
    intros [= H]; revert H; apply DecimalPos.Unsigned.to_uint_nonnil.
Qed.

(** Printing an integer in decimal loses nothing. *)
Lemma string_of_Z_inj a b : string_of_Z a = string_of_Z b -> a = b.
Proof.
  unfold string_of_Z. intros H.
  apply (f_equal NilZero.int_of_string) in H.
  destruct (to_int_not_nil a) as [Ha Ha'], (to_int_not_nil b) as [Hb Hb'].
  rewrite !NilZero.isi in H by assumption.
  injection H as H. apply DecimalZ.to_int_inj. exact H.
Qed.

Lemma id_to_node_name_inj a b : id_to_node_name a = id_to_node_name b -> a = b.
Proof.
  unfold id_to_node_name. simpl. intros [= H]. apply string_of_Z_inj. exact H.
Qed.

Lemma length_ids start_id end_id :
  (start_id <= end_id)%Z ->
  Z.of_nat (List.length (ids start_id end_id)) = (end_id - start_id + 1)%Z.
Proof. intros Hle. unfold ids. rewrite length_map, length_seq. lia. Qed.

Lemma in_ids start_id end_id id :
  In id (ids start_id end_id) <-> (start_id <= id <= end_id)%Z.
Proof.
  unfold ids. rewrite in_map_iff. split.
  - intros (i & <- & Hi). apply in_seq in Hi. lia.
  - intros Hid. exists (Z.to_nat (id - start_id)). split; [ lia | ].
    apply in_seq. lia.
Qed.

Lemma NoDup_ids start_id end_id : NoDup (ids start_id end_id).
Proof.
  unfold ids. apply Injective_map_NoDup; [ | apply seq_NoDup ].
  intros i j Hij. lia.
Qed.

Lemma names_create_nodes start_id end_id :
  map PerformanceNodeBase.m_node_name (create_nodes start_id end_id)
  = map id_to_node_name (ids start_id end_id).
Proof. unfold create_nodes. rewrite map_map. reflexivity. Qed.

End FactoryFacts.

Module FactoryClaims.
Import TemplateFactory FactoryFacts.

(** C6, as the declarations have it.  An endpoint for which every optional
    argument is omitted gets: the default quality-of-service profile,
    whatever its role; shared-pointer passing for a subscriber and
    unique-pointer passing for a publisher; a payload size of 0 for a
    publisher; a period of 10 ms for a publisher and for a client.  An
    argument omitted after others were given gets the same default. *)
Theorem from_strings_defaults :
  forall (type name : string) (tracking_options : Tracker.TrackingOptions)
         (msg_pass_by : msg_pass_by_t) (custom_qos_profile : rmw_qos_profile_t)
         (period : Z),
    (add_subscriber_from_strings type name tracking_options None
     = mkSub type name tracking_options PASS_BY_SHARED_PTR rmw_qos_profile_default
     /\ add_subscriber_from_strings type name tracking_options (Some (msg_pass_by, None))
        = mkSub type name tracking_options msg_pass_by rmw_qos_profile_default)
    /\ (add_periodic_publisher_from_strings type name None
        = mkPub type name PASS_BY_UNIQUE_PTR rmw_qos_profile_default 10000 0
        /\ add_periodic_publisher_from_strings type name (Some (msg_pass_by, None))
           = mkPub type name msg_pass_by rmw_qos_profile_default 10000 0
        /\ add_periodic_publisher_from_strings type name
             (Some (msg_pass_by, Some (custom_qos_profile, None)))
           = mkPub type name msg_pass_by custom_qos_profile 10000 0
        /\ add_periodic_publisher_from_strings type name
             (Some (msg_pass_by, Some (custom_qos_profile, Some (period, None))))
           = mkPub type name msg_pass_by custom_qos_profile period 0)
    /\ (add_periodic_client_from_strings type name None
        = mkClient type name rmw_qos_profile_default 10000
        /\ add_periodic_client_from_strings type name (Some (custom_qos_profile, None))
           = mkClient type name custom_qos_profile 10000)
    /\ add_server_from_strings type name None
       = mkServer type name rmw_qos_profile_default.
Proof. intros. repeat split. Qed.

(** C6, as stated, fails for publishers: with nothing given, messages are
    passed by unique pointer, not by shared pointer. *)
Lemma publisher_default_is_unique_ptr :
  pub_msg_pass_by (add_periodic_publisher_from_strings "stamped_vector" "missouri" None)
  = PASS_BY_UNIQUE_PTR
  /\ PASS_BY_UNIQUE_PTR <> PASS_BY_SHARED_PTR.
Proof. split; [ reflexivity | discriminate ]. Qed.

(** C8.  A bulk creation over [start_id <= end_id] returns
    [end_id - start_id + 1] nodes; their names are the prefix followed by
    each integer of the range, in increasing order, every integer of the
    range and no other being used; no two of the nodes share a name. *)
Theorem create_nodes_names :
  forall start_id end_id : Z,
    (start_id <= end_id)%Z ->
    let nodes := create_nodes start_id end_id in
    Z.of_nat (List.length nodes) = (end_id - start_id + 1)%Z
    /\ map PerformanceNodeBase.m_node_name nodes
       = map (fun id => ("node_" ++ string_of_Z id)%string) (ids start_id end_id)
    /\ (forall id, In id (ids start_id end_id) <-> (start_id <= id <= end_id)%Z)
    /\ NoDup (map PerformanceNodeBase.m_node_name nodes).
Proof.
  intros start_id end_id Hle nodes. subst nodes.
  split.
  { unfold create_nodes. rewrite length_map. apply length_ids, Hle. }
  split; [ apply names_create_nodes | ].
  split; [ intros id; apply in_ids | ].
  rewrite names_create_nodes.
  apply Injective_map_NoDup; [ | apply NoDup_ids ].
  intros a b. apply id_to_node_name_inj.
Qed.

Lemma create_nodes_names_witness :
  Z.of_nat (List.length (create_nodes (-1) 2)) = (2 - -1 + 1)%Z
  /\ map PerformanceNodeBase.m_node_name (create_nodes (-1) 2)
     = ["node_-1"; "node_0"; "node_1"; "node_2"]
  /\ NoDup (map PerformanceNodeBase.m_node_name (create_nodes (-1) 2)).
Proof.
  assert (Hle : (-1 <= 2)%Z) by discriminate.
  destruct (create_nodes_names (-1) 2 Hle) as (Hlen & Hnames & _ & Hnodup).
  split; [ exact Hlen | ]. split; [ reflexivity | exact Hnodup ].
Defined.

End FactoryClaims.

(* ================================================================== *)
(** * Construction of the endpoints *)

Module ConstructionFacts.
Import PerformanceNodeBase StdMapFacts NodeFacts.

Section WithValues.
Context {V : Type}.
Implicit Types (m : StdMap.t V) (k : string) (v : V).

Lemma at_insert_other k k' v m :
  k' <> k -> StdMap.at_ k' (StdMap.insert k v m) = StdMap.at_ k' m.
Proof.
  intros Hne. induction m as [ | [k0 v0] m IH]; simpl.
  - destruct (String.eqb k' k) eqn:Heq; [ | reflexivity ].
    apply String.eqb_eq in Heq. contradiction.
  - destruct (String_as_OT.compare k k0) eqn:Hcmp; simpl.
    + reflexivity.
    + destruct (String.eqb k' k) eqn:Heq; [ | reflexivity ].
      apply String.eqb_eq in Heq. contradiction.
    + rewrite IH. reflexivity.
Qed.

Lemma at_insert_some k v m : exists v', StdMap.at_ k (StdMap.insert k v m) = Some v'.
Proof.
  induction m as [ | [k0 v0] m IH]; simpl.
  - rewrite String.eqb_refl. eauto.
  - destruct (String_as_OT.compare k k0) eqn:Hcmp; simpl.
    + apply compare_eq in Hcmp. subst k0. rewrite String.eqb_refl. eauto.
    + rewrite String.eqb_refl. eauto.
    + destruct (String.eqb k k0); eauto.
Qed.

Lemma at_keys k m : StdMap.at_ k m <> None <-> In k (StdMap.keys m).
Proof.
  induction m as [ | [k0 v0] m IH]; simpl.
  - split; [ congruence | contradiction ].
  - destruct (String.eqb k k0) eqn:Heq.
    + apply String.eqb_eq in Heq. subst k0. split; [ auto | discriminate ].
    + rewrite IH. apply String.eqb_neq in Heq. split; [ auto | ].
      intros [Hk | Hk]; [ congruence | exact Hk ].
Qed.

End WithValues.

Lemma with_pubs_same n : with_pubs (_pubs n) n = n.
Proof. destruct n; reflexivity. Qed.
Lemma with_subs_same n : with_subs (_subs n) n = n.
Proof. destruct n; reflexivity. Qed.
Lemma with_clients_same n : with_clients (_clients n) n = n.
Proof. destruct n; reflexivity. Qed.
Lemma with_servers_same n : with_servers (_servers n) n = n.
Proof. destruct n; reflexivity. Qed.

End ConstructionFacts.

Module ConstructionExtras.
Import PerformanceNodeBase StdMapFacts NodeFacts ConstructionFacts.

(** X1.  [add_publisher] and [add_subscriber] on a topic the node already
    has leave the node exactly as it was: [std::map::insert] does not
    replace, so the endpoint keeps its tracker and what it has counted.  On a
    topic that is new they store the endpoint with a tracker at its initial
    state, named after the node and the topic; the subscriber remembers the
    quality of service, the pointer kind of its callback and the tracking
    options, the publisher gets default tracking options.  Endpoints under
    other names are not touched. *)
Theorem add_topic_endpoint_keeps_existing :
  forall (n : t) (topic : Topic) (qos : rmw_qos_profile_t)
         (msg_pass_by : msg_pass_by_t) (opts : Tracker.TrackingOptions),
    well_formed n ->
    ((StdMap.at_ (topic_name topic) (_pubs n) <> None ->
        add_publisher topic qos n = n)
     /\ (StdMap.at_ (topic_name topic) (_pubs n) = None ->
           StdMap.at_ (topic_name topic) (_pubs (add_publisher topic qos n))
           = Some (mkPublisher (topic_name topic) qos,
                   Tracker.new (m_node_name n) (topic_name topic)
                     Tracker.DefaultOptions))
     /\ (forall other, other <> topic_name topic ->
           StdMap.at_ other (_pubs (add_publisher topic qos n))
           = StdMap.at_ other (_pubs n)))
    /\ ((StdMap.at_ (topic_name topic) (_subs n) <> None ->
           add_subscriber topic msg_pass_by opts qos n = n)
        /\ (StdMap.at_ (topic_name topic) (_subs n) = None ->
              StdMap.at_ (topic_name topic)
                (_subs (add_subscriber topic msg_pass_by opts qos n))
              = Some (mkSubscription (topic_name topic) qos msg_pass_by,
                      Tracker.new (m_node_name n) (topic_name topic) opts))
        /\ (forall other, other <> topic_name topic ->
              StdMap.at_ other (_subs (add_subscriber topic msg_pass_by opts qos n))
              = StdMap.at_ other (_subs n))).
Proof.
  intros n topic qos msg_pass_by opts (Hp & Hs & _ & _). split; split.
  - intros Hat. unfold add_publisher.
    destruct (StdMap.at_ (topic_name topic) (_pubs n)) as [v0 | ] eqn:Hv0;
      [ | congruence ].
    rewrite (insert_present _ _ v0 _ Hp Hv0). apply with_pubs_same.
  - split.
    + intros Hnone. simpl. apply at_insert_new. exact Hnone.
    + intros other Hne. simpl. apply at_insert_other. exact Hne.
  - intros Hat. unfold add_subscriber.
    destruct (StdMap.at_ (topic_name topic) (_subs n)) as [v0 | ] eqn:Hv0;
      [ | congruence ].
    rewrite (insert_present _ _ v0 _ Hs Hv0). apply with_subs_same.
  - split.
    + intros Hnone. simpl. rewrite at_insert_new by exact Hnone.
      destruct msg_pass_by; reflexivity.
    + intros other Hne. simpl. apply at_insert_other. exact Hne.
Qed.

Lemma add_topic_endpoint_keeps_existing_witness :
  add_publisher (mkTopic "missouri" vector_uint8) (rmw_qos_profile_custom 3)
    Scenario.wired_node = Scenario.wired_node
  /\ StdMap.at_ "tigris"
       (_subs (add_subscriber (mkTopic "tigris" vector_uint8) PASS_BY_UNIQUE_PTR
                 (Tracker.CustomOptions 1) rmw_qos_profile_default Scenario.wired_node))
     = Some (mkSubscription "tigris" rmw_qos_profile_default PASS_BY_UNIQUE_PTR,
             Tracker.new "node_1" "tigris" (Tracker.CustomOptions 1)).
Proof.
  assert (Hwf : well_formed Scenario.wired_node).
  { apply add_periodic_client_well_formed, add_server_well_formed,
      add_periodic_publisher_well_formed, add_subscriber_well_formed,
      add_subscriber_well_formed, new_well_formed. }
  split.
  - apply (proj1 (proj1 (add_topic_endpoint_keeps_existing Scenario.wired_node
                           (mkTopic "missouri" vector_uint8) (rmw_qos_profile_custom 3)
                           PASS_BY_UNIQUE_PTR Tracker.DefaultOptions Hwf))).
    discriminate.
  - apply (proj1 (proj2 (proj2 (add_topic_endpoint_keeps_existing Scenario.wired_node
                                  (mkTopic "tigris" vector_uint8) rmw_qos_profile_default
                                  PASS_BY_UNIQUE_PTR (Tracker.CustomOptions 1) Hwf)))).
    reflexivity.
Defined.

(** X2.  The same for services: [add_server] and [add_client] on a service
    name the node already has change nothing; on a new name they store the
    endpoint with a tracker at its initial state and, for a client, a request
    counter at 0.  Endpoints under other names are not touched. *)
Theorem add_service_endpoint_keeps_existing :
  forall (n : t) (service : Service) (qos : rmw_qos_profile_t),
    well_formed n ->
    ((StdMap.at_ (service_name service) (_servers n) <> None ->
        add_server service qos n = n)
     /\ (StdMap.at_ (service_name service) (_servers n) = None ->
           StdMap.at_ (service_name service) (_servers (add_server service qos n))
           = Some (mkServer (service_name service) qos,
                   Tracker.new (m_node_name n) (service_name service)
                     Tracker.DefaultOptions))
     /\ (forall other, other <> service_name service ->
           StdMap.at_ other (_servers (add_server service qos n))
           = StdMap.at_ other (_servers n)))
    /\ ((StdMap.at_ (service_name service) (_clients n) <> None ->
           add_client service qos n = n)
        /\ (StdMap.at_ (service_name service) (_clients n) = None ->
              StdMap.at_ (service_name service) (_clients (add_client service qos n))
              = Some (mkClient (service_name service) qos,
                      Tracker.new (m_node_name n) (service_name service)
                        Tracker.DefaultOptions,
                      0))
        /\ (forall other, other <> service_name service ->
              StdMap.at_ other (_clients (add_client service qos n))
              = StdMap.at_ other (_clients n))).
Proof.
  intros n service qos (_ & _ & Hc & Hv). split; split.
  - intros Hat. unfold add_server.
    destruct (StdMap.at_ (service_name service) (_servers n)) as [v0 | ] eqn:Hv0;
      [ | congruence ].
    rewrite (insert_present _ _ v0 _ Hv Hv0). apply with_servers_same.
  - split.
    + intros Hnone. simpl. apply at_insert_new. exact Hnone.
    + intros other Hne. simpl. apply at_insert_other. exact Hne.
  - intros Hat. unfold add_client.
    destruct (StdMap.at_ (service_name service) (_clients n)) as [v0 | ] eqn:Hv0;
      [ | congruence ].
    rewrite (insert_present _ _ v0 _ Hc Hv0). apply with_clients_same.
  - split.
    + intros Hnone. simpl. apply at_insert_new. exact Hnone.
    + intros other Hne. simpl. apply at_insert_other. exact Hne.
Qed.

Lemma add_service_endpoint_keeps_existing_witness :
  add_client (mkService "srv") (rmw_qos_profile_custom 3) Scenario.wired_node
  = Scenario.wired_node
  /\ StdMap.at_ "status"
       (_servers (add_server (mkService "status") rmw_qos_profile_default
                    Scenario.wired_node))
     = Some (mkServer "status" rmw_qos_profile_default,
             Tracker.new "node_1" "status" Tracker.DefaultOptions).
Proof.
  assert (Hwf : well_formed Scenario.wired_node).
  { apply add_periodic_client_well_formed, add_server_well_formed,
      add_periodic_publisher_well_formed, add_subscriber_well_formed,
      add_subscriber_well_formed, new_well_formed. }
  split.
  - apply (proj1 (proj2 (add_service_endpoint_keeps_existing Scenario.wired_node
                           (mkService "srv") (rmw_qos_profile_custom 3) Hwf))).
    discriminate.
  - apply (proj1 (proj2 (proj1 (add_service_endpoint_keeps_existing Scenario.wired_node
                                  (mkService "status") rmw_qos_profile_default Hwf)))).
    reflexivity.
Defined.

End ConstructionExtras.

Module PeriodicExtras.
Import PerformanceNodeBase StdMapFacts NodeFacts ConstructionFacts.

(** What [_publish] returns when the publisher exists, in full. *)
Lemma publish_returns Msg name msg_pass_by size period publish_time end_time n pub tr :
  StdMap.at_ name (_pubs n) = Some (pub, tr) ->
  let pub_frequency := to_float32 (float_of_Z 1000000 / float_of_Z period)%float in
  let d := fst (resize_msg (default_data Msg) size) in
  let msg_size := snd (resize_msg (default_data Msg) size) in
  let msg :=
    mkMessage
      (create_msg_header publish_time pub_frequency
         (Tracker.expected_next_tracking_number tr) msg_size) d in
  let tr' :=
    Tracker.add_sample (float_of_Z (elapsed_us publish_time end_time))
      (Tracker.set_size msg_size
         (Tracker.set_frequency pub_frequency
            (snd (Tracker.get_and_update_tracking_number tr)))) in
  _publish Msg name msg_pass_by size period publish_time end_time n
  = Returned
      (with_published (published n ++ [(name, msg_pass_by, msg)])
         (with_pubs (StdMap.assign name (pub, tr') (_pubs n)) n)).
Proof.
  intros Hat. unfold _publish. rewrite Hat.
  destruct msg_pass_by, Msg; reflexivity.
Qed.

(** The single-precision arithmetic of [_publish] on examples: a period of
    3000 microseconds gives the [float] nearest to 333.33..., not the
    [double]; an elapsed time is divided in single precision before it is
    truncated to microseconds. *)
Lemma publish_single_precision_examples :
  to_float32 (float_of_Z 1000000 / float_of_Z 3000)%float
  = 333.333343505859375%float
  /\ to_float32 (float_of_Z 1000000 / float_of_Z 10000)%float = 100%float
  /\ elapsed_us 0%Z 40000%Z = 40%Z
  /\ elapsed_us 0%Z 999999999%Z = 1000000%Z
  /\ elapsed_us 0%Z 123456789012%Z = 123456792%Z.
Proof. vm_compute. repeat split. Qed.

Lemma get_published_topics_eq n : get_published_topics n = StdMap.keys (_pubs n).
Proof. unfold get_published_topics. rewrite fold_push. reflexivity. Qed.

(** X3.  The timer registered by [add_periodic_publisher] can always fire.
    The call appends exactly one timer, with the period given, bound to the
    topic, the pointer kind, the size and the period; when that timer fires
    [_publish] finds its publisher, never throws, and hands the middleware one
    message on the topic, stamped with the clock reading taken before
    publishing, sized by [resize_msg], and numbered 0 if the publisher is new
    or with the counter of the publisher that was already there. *)
Theorem periodic_publisher_timer_fires :
  forall (n : t) (topic : Topic) (period : Z) (msg_pass_by : msg_pass_by_t)
         (qos : rmw_qos_profile_t) (size : N) (ready_in : option Z)
         (publish_time end_time : Time),
    well_formed n ->
    let n1 := add_periodic_publisher topic period msg_pass_by qos size n in
    let task :=
      publisher_task (topic_name topic) (topic_data topic) msg_pass_by size period in
    _timers n1 = _timers n ++ [mkTimer period task]
    /\ exists n2 msg,
         run_timer task ready_in publish_time end_time n1 = Returned n2
         /\ published n2 = published n ++ [(topic_name topic, msg_pass_by, msg)]
         /\ Header.stamp (header msg) = publish_time
         /\ (data msg, Header.size (header msg))
            = resize_msg (default_data (topic_data topic)) size
         /\ Header.tracking_number (header msg)
            = match StdMap.at_ (topic_name topic) (_pubs n) with
              | Some (_, tr) => Tracker.expected_next_tracking_number tr
              | None => 0
              end.
Proof.
  intros n topic period msg_pass_by qos size ready_in publish_time end_time
         (Hp & _) n1 task.
  split; [ reflexivity | ].
  assert (Hat : exists pub tr,
             StdMap.at_ (topic_name topic) (_pubs n1) = Some (pub, tr)
             /\ Tracker.expected_next_tracking_number tr
                = match StdMap.at_ (topic_name topic) (_pubs n) with
                  | Some (_, tr0) => Tracker.expected_next_tracking_number tr0
                  | None => 0
                  end).
  { subst n1. simpl.
    destruct (StdMap.at_ (topic_name topic) (_pubs n)) as [[pub0 tr0] | ] eqn:Hold.
    - rewrite (insert_present _ _ (pub0, tr0) _ Hp Hold). eauto.
    - rewrite (at_insert_new _ _ _ Hold). eauto. }
  destruct Hat as (pub & tr & Hat & Hnum).
  subst task. simpl run_timer.
  rewrite (publish_returns _ _ _ _ _ _ _ _ pub tr Hat).
  eexists _, _. split; [ reflexivity | ].
  split; [ reflexivity | ]. split; [ reflexivity | ].
  split; [ | exact Hnum ].
  simpl. destruct (resize_msg (default_data (topic_data topic)) size); reflexivity.
Qed.

Lemma periodic_publisher_timer_fires_witness :
  exists n2 msg,
    run_timer (publisher_task "tigris" vector_uint8 PASS_BY_SHARED_PTR 16 20000)
      None 500%Z 900%Z
      (add_periodic_publisher (mkTopic "tigris" vector_uint8) 20000
         PASS_BY_SHARED_PTR rmw_qos_profile_default 16 Scenario.wired_node)
    = Returned n2
    /\ published n2
       = published Scenario.wired_node ++ [("tigris", PASS_BY_SHARED_PTR, msg)]
    /\ Header.stamp (header msg) = 500%Z
    /\ (data msg, Header.size (header msg))
       = (vector_data (repeat Byte.x00 16), 16)
    /\ Header.tracking_number (header msg) = 0.
Proof.
  assert (Hwf : well_formed Scenario.wired_node).
  { apply add_periodic_client_well_formed, add_server_well_formed,
      add_periodic_publisher_well_formed, add_subscriber_well_formed,
      add_subscriber_well_formed, new_well_formed. }
  apply (proj2 (periodic_publisher_timer_fires Scenario.wired_node
                  (mkTopic "tigris" vector_uint8) 20000 PASS_BY_SHARED_PTR
                  rmw_qos_profile_default 16 None 500%Z 900%Z Hwf)).
Defined.

(** X4.  [add_periodic_client] never throws: the client it looks up is the
    one it has just inserted or the one that was already there.  With a
    period other than 0 it returns, having stored [1000000 / period], the
    integer quotient, as the frequency of the client's tracker (overwriting
    the frequency of a client that existed); it keeps the handle and the
    request counter of an existing client, starts a new client at counter 0,
    appends exactly one timer bound to the service name and the size, and
    touches no other client.  With a period of 0 the quotient is a division
    by zero: the call stops there, with the client added by [add_client] but
    no frequency stored and no timer created. *)
Theorem add_periodic_client_returns :
  forall (n : t) (service : Service) (period : Z) (qos : rmw_qos_profile_t)
         (size : N),
    well_formed n ->
    (period <> 0%Z ->
     exists n' client tracker tn,
       add_periodic_client service period qos size n = Returned n'
       /\ StdMap.at_ (service_name service) (_clients n') = Some (client, tracker, tn)
       /\ Tracker.frequency tracker = float_of_Z (Z.quot 1000000 period)
       /\ (client, tracker, tn)
          = match StdMap.at_ (service_name service) (_clients n) with
            | Some (client0, tracker0, tn0) =>
                (client0,
                 Tracker.set_frequency (float_of_Z (Z.quot 1000000 period)) tracker0,
                 tn0)
            | None =>
                (mkClient (service_name service) qos,
                 Tracker.set_frequency (float_of_Z (Z.quot 1000000 period))
                   (Tracker.new (m_node_name n) (service_name service)
                      Tracker.DefaultOptions),
                 0)
            end
       /\ _timers n' = _timers n ++ [mkTimer period (client_task (service_name service) size)]
       /\ (forall other, other <> service_name service ->
             StdMap.at_ other (_clients n') = StdMap.at_ other (_clients n)))
    /\ (period = 0%Z ->
        add_periodic_client service period qos size n
        = Undefined (add_client service qos n)
        /\ _timers (add_client service qos n) = _timers n
        /\ StdMap.at_ (service_name service) (_clients (add_client service qos n))
           = match StdMap.at_ (service_name service) (_clients n) with
             | Some old => Some old
             | None =>
                 Some (mkClient (service_name service) qos,
                       Tracker.new (m_node_name n) (service_name service)
                         Tracker.DefaultOptions, 0)
             end).
Proof.
  intros n service period qos size (_ & _ & Hc & _).
  unfold add_periodic_client.
  assert (Hat : exists entry,
             StdMap.at_ (service_name service) (_clients (add_client service qos n))
             = Some entry
             /\ entry
                = match StdMap.at_ (service_name service) (_clients n) with
                  | Some old => old
                  | None =>
                      (mkClient (service_name service) qos,
                       Tracker.new (m_node_name n) (service_name service)
                         Tracker.DefaultOptions, 0)
                  end).
  { simpl.
    destruct (StdMap.at_ (service_name service) (_clients n)) as [old | ] eqn:Hold.
    - rewrite (insert_present _ _ old _ Hc Hold). eauto.
    - rewrite (at_insert_new _ _ _ Hold). eauto. }
  destruct Hat as ([[client0 tracker0] tn0] & Hat & Hentry).
  rewrite Hat. split.
  - intros Hperiod. apply Z.eqb_neq in Hperiod. rewrite Hperiod.
    eexists _, client0, _, tn0. split; [ reflexivity | ].
    split; [ simpl; eapply at_assign; exact Hat | ].
    split; [ reflexivity | ].
    split.
    + destruct (StdMap.at_ (service_name service) (_clients n)) as [[[c1 t1] n1] | ];
        injection Hentry as -> -> ->; reflexivity.
    + split; [ reflexivity | ].
      intros other Hne. simpl.
      rewrite at_assign_other by exact Hne. apply at_insert_other. exact Hne.
  - intros ->. split; [ reflexivity | ]. split; [ reflexivity | ].
    rewrite Hentry.
    destruct (StdMap.at_ (service_name service) (_clients n)); reflexivity.
Qed.

Lemma add_periodic_client_returns_witness :
  (exists n' client tracker tn,
     add_periodic_client (mkService "status") 3000 rmw_qos_profile_default 0
       Scenario.wired_node = Returned n'
     /\ StdMap.at_ "status" (_clients n') = Some (client, tracker, tn)
     /\ Tracker.frequency tracker = float_of_Z 333
     /\ (client, tracker, tn)
        = (mkClient "status" rmw_qos_profile_default,
           Tracker.set_frequency (float_of_Z 333)
             (Tracker.new "node_1" "status" Tracker.DefaultOptions),
           0)
     /\ _timers n' = _timers Scenario.wired_node ++ [mkTimer 3000 (client_task "status" 0)]
     /\ (forall other, other <> "status" ->
           StdMap.at_ other (_clients n') = StdMap.at_ other (_clients Scenario.wired_node)))
  /\ (add_periodic_client (mkService "status") 0 rmw_qos_profile_default 0
        Scenario.wired_node
      = Undefined (add_client (mkService "status") rmw_qos_profile_default
                     Scenario.wired_node)
      /\ _timers (add_client (mkService "status") rmw_qos_profile_default
                    Scenario.wired_node)
         = _timers Scenario.wired_node
      /\ StdMap.at_ "status"
           (_clients (add_client (mkService "status") rmw_qos_profile_default
                        Scenario.wired_node))
         = Some (mkClient "status" rmw_qos_profile_default,
                 Tracker.new "node_1" "status" Tracker.DefaultOptions, 0)).
Proof.
  assert (Hwf : well_formed Scenario.wired_node).
  { apply add_periodic_client_well_formed, add_server_well_formed,
      add_periodic_publisher_well_formed, add_subscriber_well_formed,
      add_subscriber_well_formed, new_well_formed. }
  split.
  - apply (proj1 (add_periodic_client_returns Scenario.wired_node (mkService "status")
                    3000 rmw_qos_profile_default 0 Hwf)).
    discriminate.
  - apply (proj2 (add_periodic_client_returns Scenario.wired_node (mkService "status")
                    0 rmw_qos_profile_default 0 Hwf)).
    reflexivity.
Defined.

(** X5.  [get_published_topics] returns the topic names of the publishers
    in strictly increasing order, whatever the order in which they were
    added, each once; they are the names [pub_trackers] lists; and adding a
    publisher adds its topic to them and nothing else. *)
Theorem published_topics_sorted :
  forall n : t,
    well_formed n ->
    StronglySorted String_as_OT.lt (get_published_topics n)
    /\ NoDup (get_published_topics n)
    /\ map fst (pub_trackers n) = get_published_topics n
    /\ (forall name,
          In name (get_published_topics n) <-> StdMap.at_ name (_pubs n) <> None)
    /\ (forall topic qos name,
          In name (get_published_topics (add_publisher topic qos n))
          <-> name = topic_name topic \/ In name (get_published_topics n)).
Proof.
  intros n (Hp & _). rewrite get_published_topics_eq.
  split; [ exact Hp | ].
  split; [ apply wf_NoDup, Hp | ].
  split; [ rewrite pub_trackers_eq, map_map; reflexivity | ].
  split.
  - intros name. symmetry. apply at_keys.
  - intros topic qos name. rewrite get_published_topics_eq. simpl.
    apply keys_insert.
Qed.

Lemma published_topics_sorted_witness :
  get_published_topics
    (add_publisher (mkTopic "arkansas" vector_uint8) rmw_qos_profile_default
       Scenario.wired_node)
  = ["arkansas"; "missouri"]
  /\ NoDup (get_published_topics Scenario.wired_node).
Proof.
  assert (Hwf : well_formed Scenario.wired_node).
  { apply add_periodic_client_well_formed, add_server_well_formed,
      add_periodic_publisher_well_formed, add_subscriber_well_formed,
      add_subscriber_well_formed, new_well_formed. }
  split; [ reflexivity | ].
  apply (proj1 (proj2 (published_topics_sorted Scenario.wired_node Hwf))).
Defined.

End PeriodicExtras.

Module ClientExtras.
Import PerformanceNodeBase StdMapFacts ClientClaims.

(** X6.  A run of cycles of one client timer that starts with the lock
    free, some cycles finding the server and some not.  Every cycle returns
    with the lock free.  The requests sent are those of the cycles that found
    the server, in order, each stamped with the clock reading of its cycle and
    with the frequency stored in the client's tracker, and numbered
    consecutively modulo [2^32] from the client's counter: a cycle that is
    skipped consumes no tracking number.  The counter ends advanced, modulo
    [2^32], by the number of requests sent; as long as it does not reach
    [2^32] the numbers are the counter, the counter plus one, and so on.  A
    logger, if there is one, has received one [service_unavailable] event per
    skipped cycle. *)
Theorem request_cycles_number_consecutively :
  forall (cycles : list (option Z * Time)) (n : t) (name : string) (size : N)
         (client : Client) (tracker : Tracker.t) (tn : Tracker.TrackingNumber),
    _client_lock n = false ->
    StdMap.at_ name (_clients n) = Some (client, tracker, tn) ->
    tn < 2 ^ 32 ->
    exists n' sent,
      request_times name size cycles n = Returned n'
      /\ _client_lock n' = false
      /\ m_node_name n' = m_node_name n
      /\ outstanding n' = outstanding n ++ sent
      /\ map fst sent = repeat name (List.length (reachable cycles))
      /\ map (fun r => Header.tracking_number (snd r)) sent
         = map (fun i => (tn + N.of_nat i) mod 2 ^ 32)
             (seq 0 (List.length (reachable cycles)))
      /\ (tn + N.of_nat (List.length (reachable cycles)) <= 2 ^ 32 ->
          map (fun r => Header.tracking_number (snd r)) sent
          = map (fun i => tn + N.of_nat i) (seq 0 (List.length (reachable cycles))))
      /\ map (fun r => Header.stamp (snd r)) sent = map snd (reachable cycles)
      /\ Forall (fun r => Header.frequency (snd r) = Tracker.frequency tracker) sent
      /\ StdMap.at_ name (_clients n')
         = Some (client, tracker,
                 (tn + N.of_nat (List.length (reachable cycles))) mod 2 ^ 32)
      /\ _events_logger n'
         = option_map
             (fun log =>
                log ++ repeat (service_unavailable_event name n)
                         (List.length (unreachable cycles)))
             (_events_logger n).
Proof.
  intros cycles n name size client tracker tn Hlock Hat Htn.
  assert (Hsmall : tn mod 2 ^ 32 = tn) by (apply N.mod_small; exact Htn).
  clear Htn.
  enough (Hmain : exists n' sent,
      request_times name size cycles n = Returned n'
      /\ _client_lock n' = false
      /\ m_node_name n' = m_node_name n
      /\ outstanding n' = outstanding n ++ sent
      /\ map fst sent = repeat name (List.length (reachable cycles))
      /\ map (fun r => Header.tracking_number (snd r)) sent
         = map (fun i => (tn + N.of_nat i) mod 2 ^ 32)
             (seq 0 (List.length (reachable cycles)))
      /\ map (fun r => Header.stamp (snd r)) sent = map snd (reachable cycles)
      /\ Forall (fun r => Header.frequency (snd r) = Tracker.frequency tracker) sent
      /\ StdMap.at_ name (_clients n')
         = Some (client, tracker,
                 (tn + N.of_nat (List.length (reachable cycles))) mod 2 ^ 32)
      /\ _events_logger n'
         = option_map
             (fun log =>
                log ++ repeat (service_unavailable_event name n)
                         (List.length (unreachable cycles)))
             (_events_logger n)).
  { destruct Hmain as (n' & sent & Hrun & Hlock' & Hname & Hout & Hnames & Hnums
                       & Hstamps & Hfreq & Hat' & Hlog).
    exists n', sent.
    repeat (split; [ assumption | ]).
    split; [ | repeat (split; [ assumption | ]); assumption ].
    intros Hbound. rewrite Hnums.
    apply map_ext_in. intros i Hi. apply in_seq in Hi.
    apply N.mod_small. lia. }
  revert n name size client tracker tn Hlock Hat Hsmall.
  induction cycles as [ | [ready_in now] cycles IH];
    intros n name size client tracker tn Hlock Hat Hsmall.
  - exists n, [].
    cbn [request_times reachable unreachable filter List.length seq map repeat N.of_nat].
    rewrite app_nil_r, N.add_0_r, Hsmall.
    repeat (split; [ first [ reflexivity | assumption | constructor ] | ]).
    destruct (_events_logger n) as [log | ]; simpl; [ rewrite app_nil_r | ]; reflexivity.
  - simpl request_times. unfold reachable, unreachable. cbn [filter fst].
    destruct (wait_for_service ready_in one_second) eqn:Hwait; cbn [negb].
    + rewrite (request_available name size ready_in now n client tracker tn Hlock Hat Hwait).
      match goal with
      | |- context [request_times name size cycles ?n1] =>
          destruct (IH n1 name size client tracker (Tracker.increment tn)) as
            (n' & sent & Hrun & Hlock' & Hname & Hout & Hnames & Hnums & Hstamps
             & Hfreq & Hat' & Hlog)
      end.
      { exact Hlock. }
      { simpl. eapply at_assign. exact Hat. }
      { apply TrackerFacts.increment_small. }
      exists n', ((name, Header.mk 0 (Tracker.frequency tracker) tn now) :: sent).
      split; [ exact Hrun | ]. split; [ exact Hlock' | ].
      split; [ exact Hname | ].
      split; [ rewrite Hout; simpl; rewrite <- app_assoc; reflexivity | ].
      fold (reachable cycles). fold (unreachable cycles).
      split; [ simpl; rewrite Hnames; reflexivity | ].
      split.
      { cbn [List.length].
        rewrite TrackerFacts.numbers_from_increment by exact Hsmall.
        cbn [map snd Header.tracking_number]. rewrite Hnums. reflexivity. }
      split; [ simpl; rewrite Hstamps; reflexivity | ].
      split; [ constructor; [ reflexivity | exact Hfreq ] | ].
      split.
      { rewrite Hat'. cbn [List.length]. do 2 f_equal.
        apply TrackerFacts.increment_add_succ. }
      exact Hlog.
    + rewrite (request_unavailable name size ready_in now n client tracker tn Hlock Hat Hwait).
      match goal with
      | |- context [request_times name size cycles ?n1] =>
          destruct (IH n1 name size client tracker tn) as
            (n' & sent & Hrun & Hlock' & Hname & Hout & Hnames & Hnums & Hstamps
             & Hfreq & Hat' & Hlog)
      end.
      { exact Hlock. }
      { exact Hat. }
      { exact Hsmall. }
      exists n', sent.
      fold (reachable cycles). fold (unreachable cycles).
      repeat (split; [ assumption | ]).
      rewrite Hlog. cbn [List.length repeat].
      destruct (_events_logger n) as [log | ]; simpl; [ | reflexivity ].
      unfold EventsLogger.write_event. rewrite <- app_assoc. reflexivity.
Qed.

Lemma request_cycles_number_consecutively_witness :
  exists n' sent,
    request_times "srv" 0
      [(Some 0%Z, 100%Z); (None, 200%Z); (Some 3000000000%Z, 300%Z); (Some 5%Z, 400%Z)]
      Scenario.logged_node = Returned n'
    /\ _client_lock n' = false
    /\ m_node_name n' = "node_1"
    /\ outstanding n' = [] ++ sent
    /\ map fst sent = ["srv"; "srv"]
    /\ map (fun r => Header.tracking_number (snd r)) sent = [0; 1]
    /\ (0 + 2 <= 2 ^ 32 ->
        map (fun r => Header.tracking_number (snd r)) sent = [0; 1])
    /\ map (fun r => Header.stamp (snd r)) sent = [100%Z; 400%Z]
    /\ Forall (fun r => Header.frequency (snd r) = 100%float) sent
    /\ StdMap.at_ "srv" (_clients n')
       = Some (mkClient "srv" rmw_qos_profile_default,
               Tracker.set_frequency 100%float
                 (Tracker.new "node_1" "srv" Tracker.DefaultOptions),
               2)
    /\ _events_logger n'
       = option_map
           (fun log => log ++ repeat (service_unavailable_event "srv" Scenario.logged_node) 2)
           (Some []).
Proof.
  apply (request_cycles_number_consecutively
           [(Some 0%Z, 100%Z); (None, 200%Z); (Some 3000000000%Z, 300%Z); (Some 5%Z, 400%Z)]
           Scenario.logged_node "srv" 0
           (mkClient "srv" rmw_qos_profile_default)
           (Tracker.set_frequency 100%float
              (Tracker.new "node_1" "srv" Tracker.DefaultOptions)) 0).
  - reflexivity.
  - reflexivity.
  - reflexivity.
Defined.

(** X7.  [_request] takes the lock before it looks the client up.  Invoked
    with the lock free for a name that is not in [_clients], it throws with
    the lock still set and nothing else changed; from then on every
    [_request] of the node, for whichever client, returns at once without
    probing, sending or logging. *)
Theorem request_unknown_client_keeps_lock :
  forall (n : t) (name : string) (size : N) (ready_in : option Z) (now : Time),
    _client_lock n = false ->
    StdMap.at_ name (_clients n) = None ->
    _request name size ready_in now n = Thrown (with_client_lock true n)
    /\ forall name' size' cycles,
         request_times name' size' cycles (with_client_lock true n)
         = Returned (with_client_lock true n).
Proof.
  intros n name size ready_in now Hlock Hat. split.
  - unfold _request. rewrite Hlock. simpl. rewrite Hat. reflexivity.
  - intros name' size' cycles.
    induction cycles as [ | [ready_in' now'] cycles IH]; [ reflexivity | ].
    cbn [request_times]. rewrite request_while_locked by reflexivity. exact IH.
Qed.

Lemma request_unknown_client_keeps_lock_witness :
  _request "nile" 0 (Some 0%Z) 100%Z Scenario.wired_node
  = Thrown (with_client_lock true Scenario.wired_node)
  /\ forall name' size' cycles,
       request_times name' size' cycles (with_client_lock true Scenario.wired_node)
       = Returned (with_client_lock true Scenario.wired_node).
Proof.
  apply (request_unknown_client_keeps_lock Scenario.wired_node "nile" 0 (Some 0%Z) 100%Z).
  - reflexivity.
  - reflexivity.
Defined.

End ClientExtras.

Module CallbackExtras.
Import PerformanceNodeBase StdMapFacts NodeFacts NodeClaims PeriodicExtras.

(** X8.  [_publish] on a topic without publisher throws and changes
    nothing.  Otherwise it returns, having handed over one message whose
    header carries the frequency [1000000.0 / period] rounded to single
    precision and the size returned by [resize_msg], the same two values
    being stored in the publisher's tracker; no other publisher is touched, and neither are the subscribers,
    clients, servers, timers, logger, lock or outstanding requests: what
    [all_trackers] reports does not change by publishing. *)
Theorem publish_touches_only_its_publisher :
  forall (Msg : DataT) (name : string) (msg_pass_by : msg_pass_by_t) (size : N)
         (period : Z) (publish_time end_time : Time) (n : t),
    match StdMap.at_ name (_pubs n) with
    | None =>
        _publish Msg name msg_pass_by size period publish_time end_time n = Thrown n
    | Some (pub, tr) =>
        exists n' tr' msg,
          _publish Msg name msg_pass_by size period publish_time end_time n
          = Returned n'
          /\ published n' = published n ++ [(name, msg_pass_by, msg)]
          /\ Header.frequency (header msg)
             = to_float32 (float_of_Z 1000000 / float_of_Z period)%float
          /\ Header.size (header msg) = snd (resize_msg (default_data Msg) size)
          /\ StdMap.at_ name (_pubs n') = Some (pub, tr')
          /\ Tracker.frequency tr' = Header.frequency (header msg)
          /\ Tracker.size tr' = Header.size (header msg)
          /\ (forall other, other <> name ->
                StdMap.at_ other (_pubs n') = StdMap.at_ other (_pubs n))
          /\ get_published_topics n' = get_published_topics n
          /\ all_trackers n' = all_trackers n
          /\ (_subs n' = _subs n /\ _clients n' = _clients n /\ _servers n' = _servers n)
          /\ (_timers n' = _timers n /\ _events_logger n' = _events_logger n
              /\ _client_lock n' = _client_lock n /\ outstanding n' = outstanding n)
    end.
Proof.
  intros Msg name msg_pass_by size period publish_time end_time n.
  destruct (StdMap.at_ name (_pubs n)) as [[pub tr] | ] eqn:Hat.
  - rewrite (publish_returns Msg name msg_pass_by size period publish_time end_time
               n pub tr Hat).
    eexists _, _, _. split; [ reflexivity | ].
    split; [ reflexivity | ]. split; [ reflexivity | ]. split; [ reflexivity | ].
    split; [ simpl; eapply at_assign; exact Hat | ].
    split; [ reflexivity | ]. split; [ reflexivity | ].
    split; [ intros other Hne; simpl; apply at_assign_other; exact Hne | ].
    split; [ rewrite !get_published_topics_eq; simpl; apply keys_assign | ].
    repeat split.
  - unfold _publish. rewrite Hat. reflexivity.
Qed.

(** X9.  [_topic_callback] for a topic the node does not subscribe to
    throws and changes nothing.  Otherwise it returns, having scanned the
    header of the message with the reception time into the tracker of that
    subscriber; the subscription itself and every other subscriber are as
    before, nothing is published or requested, the publishers' trackers stay
    as they were, and a node without logger still has none. *)
Theorem topic_callback_touches_only_its_tracker :
  forall (name : string) (msg : Message) (now : Time) (n : t),
    match StdMap.at_ name (_subs n) with
    | None => _topic_callback name msg now n = Thrown n
    | Some (sub, tracker) =>
        exists n',
          _topic_callback name msg now n = Returned n'
          /\ StdMap.at_ name (_subs n')
             = Some (sub, fst (Tracker.scan (header msg) now [] tracker))
          /\ (forall other, other <> name ->
                StdMap.at_ other (_subs n') = StdMap.at_ other (_subs n))
          /\ StdMap.keys (_subs n') = StdMap.keys (_subs n)
          /\ pub_trackers n' = pub_trackers n
          /\ (_pubs n' = _pubs n /\ _clients n' = _clients n /\ _servers n' = _servers n)
          /\ (_timers n' = _timers n /\ _client_lock n' = _client_lock n
              /\ published n' = published n /\ outstanding n' = outstanding n)
          /\ (_events_logger n = None -> _events_logger n' = None)
    end.
Proof.
  intros name msg now n.
  destruct (StdMap.at_ name (_subs n)) as [[sub tracker] | ] eqn:Hat.
  - unfold _topic_callback. rewrite Hat.
    pose proof (scan_with_logger_tracker (_events_logger n) (header msg) now tracker)
      as Hscan.
    destruct (scan_with_logger (_events_logger n) (header msg) now tracker)
      as [tracker' logger'] eqn:Hres.
    simpl in Hscan. subst tracker'.
    eexists. split; [ reflexivity | ].
    split; [ simpl; eapply at_assign; exact Hat | ].
    split; [ intros other Hne; simpl; apply at_assign_other; exact Hne | ].
    split; [ simpl; apply keys_assign | ].
    split; [ reflexivity | ].
    split; [ repeat split | ]. split; [ repeat split | ].
    intros Hnone. simpl. unfold scan_with_logger in Hres. rewrite Hnone in Hres.
    injection Hres as <-. reflexivity.
  - unfold _topic_callback. rewrite Hat. reflexivity.
Qed.

(** X10.  [_service_callback] for a service the node does not serve throws,
    leaving the node and the response untouched.  Otherwise the response is
    stamped with the current time and keeps the size it came with, and the
    request is scanned into the server's tracker with that same time as its
    reception time; no other server is touched, nothing is published or
    requested, and clients, subscribers, publishers, timers and lock are as
    before. *)
Theorem service_callback_touches_only_its_tracker :
  forall (name : string) (request response : Header.t) (now : Time) (n : t),
    match StdMap.at_ name (_servers n) with
    | None => _service_callback name request response now n = Thrown (n, response)
    | Some (server, tracker) =>
        exists n' response',
          _service_callback name request response now n = Returned (n', response')
          /\ Header.stamp response' = now
          /\ Header.size response' = Header.size response
          /\ StdMap.at_ name (_servers n')
             = Some (server, fst (Tracker.scan request now [] tracker))
          /\ (forall other, other <> name ->
                StdMap.at_ other (_servers n') = StdMap.at_ other (_servers n))
          /\ all_trackers n' = all_trackers n
          /\ (_pubs n' = _pubs n /\ _subs n' = _subs n /\ _clients n' = _clients n)
          /\ (_timers n' = _timers n /\ _client_lock n' = _client_lock n
              /\ published n' = published n /\ outstanding n' = outstanding n)
    end.
Proof.
  intros name request response now n.
  destruct (StdMap.at_ name (_servers n)) as [[server tracker] | ] eqn:Hat.
  - unfold _service_callback. rewrite Hat. cbv zeta.
    match goal with
    | |- context [scan_with_logger ?l ?h ?t ?tr] =>
        pose proof (scan_with_logger_tracker l h t tr) as Hscan;
        destruct (scan_with_logger l h t tr) as [tracker' logger'] eqn:Hres
    end.
    simpl in Hscan. subst tracker'.
    eexists _, _. split; [ reflexivity | ].
    split; [ reflexivity | ]. split; [ reflexivity | ].
    split; [ simpl; eapply at_assign; exact Hat | ].
    split; [ intros other Hne; simpl; apply at_assign_other; exact Hne | ].
    repeat split.
  - unfold _service_callback. rewrite Hat. reflexivity.
Qed.

(** X11.  [_response_received_callback] for a client the node does not have
    throws and changes nothing.  Otherwise it scans the header of the request
    that was sent, not anything of the response, into the client's tracker,
    with the arrival time of the response as reception time; the client's
    handle and its request counter are as before, no other client is touched,
    nothing is sent or published, and the lock is left alone. *)
Theorem response_callback_scans_the_request :
  forall (name : string) (request : Header.t) (now : Time) (n : t),
    match StdMap.at_ name (_clients n) with
    | None => _response_received_callback name request now n = Thrown n
    | Some (client, tracker, tn) =>
        exists n',
          _response_received_callback name request now n = Returned n'
          /\ StdMap.at_ name (_clients n')
             = Some (client, fst (Tracker.scan request now [] tracker), tn)
          /\ (forall other, other <> name ->
                StdMap.at_ other (_clients n') = StdMap.at_ other (_clients n))
          /\ (_pubs n' = _pubs n /\ _subs n' = _subs n /\ _servers n' = _servers n)
          /\ (_timers n' = _timers n /\ _client_lock n' = _client_lock n
              /\ published n' = published n /\ outstanding n' = outstanding n)
    end.
Proof.
  intros name request now n.
  destruct (StdMap.at_ name (_clients n)) as [[[client tracker] tn] | ] eqn:Hat.
  - unfold _response_received_callback. rewrite Hat.
    pose proof (scan_with_logger_tracker (_events_logger n) request now tracker)
      as Hscan.
    destruct (scan_with_logger (_events_logger n) request now tracker)
      as [tracker' logger'] eqn:Hres.
    simpl in Hscan. subst tracker'.
    eexists. split; [ reflexivity | ].
    split; [ simpl; eapply at_assign; exact Hat | ].
    split; [ intros other Hne; simpl; apply at_assign_other; exact Hne | ].
    repeat split.
  - unfold _response_received_callback. rewrite Hat. reflexivity.
Qed.

End CallbackExtras.

(* ================================================================== *)
(** * More on [Mandalay] *)

Module MandalayExtras.
Import Mandalay PublishFacts.

Lemma combine_seq_shift {A : Type} (l : list A) : forall a k,
  combine (seq (S a) k) l = map (fun p => (S (fst p), snd p)) (combine (seq a k) l).
Proof.
  induction l as [ | x l IH]; intros a k.
  - destruct k; reflexivity.
  - destruct k as [ | k]; [ reflexivity | ].
    simpl. rewrite IH. reflexivity.
Qed.

Lemma publish_loop_messages MsgType period size name nows :
  forall tn written,
    to_uint32 tn = tn ->
    publish_loop MsgType period size name nows tn written
    = (to_uint32 (tn + Z.of_nat (List.length nows)),
       written
       ++ map (fun p =>
                 fill_msg (default_msg MsgType) (to_uint32 (tn + Z.of_nat (fst p)))
                   period size name (snd p))
              (combine (seq 0 (List.length nows)) nows)).
Proof.
  induction nows as [ | now nows IH]; intros tn written Htn.
  - simpl. rewrite Z.add_0_r, Htn, app_nil_r. reflexivity.
  - cbn [publish_loop]. rewrite IH by (unfold to_uint32; apply Z.mod_mod; lia).
    cbn [List.length seq combine map fst snd].
    rewrite combine_seq_shift, map_map. cbn [fst snd].
    rewrite to_uint32_add_succ, <- app_assoc. cbn [app Z.of_nat].
    rewrite Z.add_0_r, Htn. do 3 f_equal.
    apply map_ext. intros [i x]. cbn [fst snd].
    rewrite to_uint32_add_succ. reflexivity.
Qed.



(** X13.  [publish] writes one message per iteration of its loop, in order:
    the message of iteration [i] (from 0) is a freshly constructed message
    filled with the number [i] modulo [2^32] and with the clock reading of
    that iteration, nothing of an earlier message carrying over.  A filled
    message has the tracking number given, the frequency [1000.0 / period],
    the size hint as size, the split clock reading as time stamp, and as
    payload [size] zero bytes for a byte vector, the untouched payload
    otherwise.  When the loop ends its counter holds the number of messages
    written modulo [2^32]. *)
Theorem mandalay_publish_messages :
  forall (MsgType : DataT) (period : Z) (size : N) (name : string) (nows : list Z),
    publish MsgType period size name nows
    = map (fun p =>
             fill_msg (default_msg MsgType) (to_uint32 (Z.of_nat (fst p)))
               period size name (snd p))
          (combine (seq 0 (List.length nows)) nows)
    /\ List.length (publish MsgType period size name nows) = List.length nows
    /\ fst (publish_loop MsgType period size name nows 0 [])
       = to_uint32 (Z.of_nat (List.length nows))
    /\ (forall tn now,
          let msg := fill_msg (default_msg MsgType) tn period size name now in
          tracking_number (header msg) = tn
          /\ frequency (header msg) = (float_of_Z 1000 / float_of_Z period)%float
          /\ Mandalay.size (header msg) = size
          /\ sec (header msg) = seconds_since_epoch now
          /\ nanosec (header msg) = nanoseconds_diff now
          /\ data msg
             = match MsgType with
               | vector_uint8 => vector_data (repeat Byte.x00 (N.to_nat size))
               | fixed_layout sizeof_data => fixed_data sizeof_data
               end).
Proof.
  intros MsgType period size name nows.
  assert (Hloop := publish_loop_messages MsgType period size name nows 0 []
                     ltac:(reflexivity)).
  split; [ unfold publish; rewrite Hloop; reflexivity | ].
  split.
  - unfold publish. rewrite Hloop. cbn [snd app].
    rewrite length_map, length_combine, length_seq. apply Nat.min_id.
  - split; [ rewrite Hloop; reflexivity | ].
    intros tn now msg. subst msg.
    destruct MsgType as [ | sizeof_data]; repeat split.
    cbn. unfold vector_resize. rewrite firstn_nil, Nat.sub_0_r. reflexivity.
Qed.

End MandalayExtras.

(* ================================================================== *)
(** * Invariants over histories *)

Module HistoryFacts.
Import PerformanceNodeBase StdMapFacts NodeFacts NodeClaims ConstructionFacts.

Section WithValues.
Context {V : Type}.
Implicit Types (m : StdMap.t V) (k : string) (v : V).

Lemma Forall_insert (P : string * V -> Prop) k v m :
  Forall P m -> P (k, v) -> Forall P (StdMap.insert k v m).
Proof.
  intros Hm Hv. induction m as [ | [k0 v0] m IH]; simpl.
  - constructor; [ exact Hv | constructor ].
  - inversion Hm as [ | ? ? Hhead Htail]; subst.
    destruct (String_as_OT.compare k k0); auto.
Qed.

Lemma Forall_assign (P : string * V -> Prop) k v m :
  Forall P m -> P (k, v) -> Forall P (StdMap.assign k v m).
Proof.
  intros Hm Hv. induction m as [ | [k0 v0] m IH]; simpl; [ constructor | ].
  inversion Hm as [ | ? ? Hhead Htail]; subst.
  destruct (String.eqb k k0) eqn:Heq.
  - apply String.eqb_eq in Heq. subst k0. constructor; assumption.
  - constructor; auto.
Qed.

Lemma Forall_at (P : string * V -> Prop) k v m :
  Forall P m -> StdMap.at_ k m = Some v -> P (k, v).
Proof.
  intros Hm Hat. rewrite Forall_forall in Hm. apply Hm, at_In, Hat.
Qed.

Lemma keys_insert_incl k v m : incl (StdMap.keys m) (StdMap.keys (StdMap.insert k v m)).
Proof. intros k' Hin. apply keys_insert. right. exact Hin. Qed.

End WithValues.

Lemma tracker_named_new node name opts :
  tracker_named node name (Tracker.new node name opts).
Proof. split; reflexivity. Qed.

Lemma tracker_named_scan node name logger h now tr :
  tracker_named node name tr ->
  tracker_named node name (fst (scan_with_logger logger h now tr)).
Proof.
  intros [Hnode Hname]. rewrite scan_with_logger_tracker.
  destruct (TrackerFacts.scan_effect_holds h now [] tr) as [_ Hn Hnd].
  split; congruence.
Qed.

Lemma add_subscriber_consistent topic msg_pass_by opts qos n :
  consistent n -> consistent (add_subscriber topic msg_pass_by opts qos n).
Proof.
  intros (Hwf & Hp & Hs & Hc & Hv).
  split; [ apply add_subscriber_well_formed, Hwf | ].
  repeat split; try assumption.
  simpl. apply Forall_insert; [ exact Hs | apply tracker_named_new ].
Qed.

Lemma add_publisher_consistent topic qos n :
  consistent n -> consistent (add_publisher topic qos n).
Proof.
  intros (Hwf & Hp & Hs & Hc & Hv).
  split; [ apply add_publisher_well_formed, Hwf | ].
  repeat split; try assumption.
  simpl. apply Forall_insert; [ exact Hp | apply tracker_named_new ].
Qed.

Lemma add_server_consistent service qos n :
  consistent n -> consistent (add_server service qos n).
Proof.
  intros (Hwf & Hp & Hs & Hc & Hv).
  split; [ apply add_server_well_formed, Hwf | ].
  repeat split; try assumption.
  simpl. apply Forall_insert; [ exact Hv | apply tracker_named_new ].
Qed.

Lemma add_client_consistent service qos n :
  consistent n -> consistent (add_client service qos n).
Proof.
  intros (Hwf & Hp & Hs & Hc & Hv).
  split; [ apply add_client_well_formed, Hwf | ].
  repeat split; try assumption.
  simpl. apply Forall_insert; [ exact Hc | apply tracker_named_new ].
Qed.

Lemma add_periodic_client_consistent service period qos size n :
  consistent n ->
  consistent (state_of (add_periodic_client service period qos size n)).
Proof.
  intros Hn. apply (add_client_consistent service qos) in Hn.
  unfold add_periodic_client.
  destruct (StdMap.at_ (service_name service) (_clients (add_client service qos n)))
    as [[[client tracker] tn] | ] eqn:Hat; [ | exact Hn ].
  destruct (period =? 0)%Z; [ exact Hn | ].
  destruct Hn as ((Hwp & Hws & Hwc & Hwv) & Hp & Hs & Hc & Hv).
  pose proof (Forall_at _ _ _ _ Hc Hat) as Hnamed.
  split; [ repeat split; simpl; auto using wf_assign | ].
  repeat split; try assumption.
  simpl. apply Forall_assign; [ exact Hc | exact Hnamed ].
Qed.

Lemma publish_consistent Msg name msg_pass_by size period publish_time end_time n :
  consistent n ->
  consistent
    (state_of (_publish Msg name msg_pass_by size period publish_time end_time n)).
Proof.
  intros Hn.
  destruct (StdMap.at_ name (_pubs n)) as [[pub tr] | ] eqn:Hat.
  - rewrite (PeriodicExtras.publish_returns Msg name msg_pass_by size period
               publish_time end_time n pub tr Hat).
    destruct Hn as ((Hwp & Hws & Hwc & Hwv) & Hp & Hs & Hc & Hv).
    pose proof (Forall_at _ _ _ _ Hp Hat) as Hnamed.
    split; [ repeat split; simpl; auto using wf_assign | ].
    repeat split; try assumption.
    simpl. apply Forall_assign; [ exact Hp | exact Hnamed ].
  - unfold _publish. rewrite Hat. exact Hn.
Qed.

Lemma topic_callback_consistent name msg now n :
  consistent n -> consistent (state_of (_topic_callback name msg now n)).
Proof.
  intros Hn. unfold _topic_callback.
  destruct (StdMap.at_ name (_subs n)) as [[sub tr] | ] eqn:Hat; [ | exact Hn ].
  destruct Hn as ((Hwp & Hws & Hwc & Hwv) & Hp & Hs & Hc & Hv).
  pose proof (Forall_at _ _ _ _ Hs Hat) as Hnamed.
  pose proof (tracker_named_scan _ _ (_events_logger n) (header msg) now tr Hnamed)
    as Hnamed'.
  destruct (scan_with_logger (_events_logger n) (header msg) now tr) as [tr' lg'].
  split; [ repeat split; simpl; auto using wf_assign | ].
  repeat split; try assumption.
  simpl. apply Forall_assign; [ exact Hs | exact Hnamed' ].
Qed.

Lemma response_callback_consistent name request now n :
  consistent n ->
  consistent (state_of (_response_received_callback name request now n)).
Proof.
  intros Hn. unfold _response_received_callback.
  destruct (StdMap.at_ name (_clients n)) as [[[client tr] tn] | ] eqn:Hat;
    [ | exact Hn ].
  destruct Hn as ((Hwp & Hws & Hwc & Hwv) & Hp & Hs & Hc & Hv).
  pose proof (Forall_at _ _ _ _ Hc Hat) as Hnamed.
  pose proof (tracker_named_scan _ _ (_events_logger n) request now tr Hnamed)
    as Hnamed'.
  destruct (scan_with_logger (_events_logger n) request now tr) as [tr' lg'].
  split; [ repeat split; simpl; auto using wf_assign | ].
  repeat split; try assumption.
  simpl. apply Forall_assign; [ exact Hc | exact Hnamed' ].
Qed.

Lemma service_callback_consistent name request response now n :
  consistent n ->
  consistent (fst (state_of (_service_callback name request response now n))).
Proof.
  intros Hn. unfold _service_callback.
  destruct (StdMap.at_ name (_servers n)) as [[server tr] | ] eqn:Hat; [ | exact Hn ].
  destruct Hn as ((Hwp & Hws & Hwc & Hwv) & Hp & Hs & Hc & Hv).
  pose proof (Forall_at _ _ _ _ Hv Hat) as Hnamed.
  cbv zeta.
  match goal with
  | |- context [scan_with_logger ?l ?h ?t tr] =>
      pose proof (tracker_named_scan _ _ l h t tr Hnamed) as Hnamed';
      destruct (scan_with_logger l h t tr) as [tr' lg']
  end.
  split; [ repeat split; simpl; auto using wf_assign | ].
  repeat split; try assumption.
  simpl. apply Forall_assign; [ exact Hv | exact Hnamed' ].
Qed.

Lemma request_consistent name size ready_in now n :
  consistent n -> consistent (state_of (_request name size ready_in now n)).
Proof.
  intros Hn. unfold _request.
  destruct (_client_lock n); [ exact Hn | ].
  cbv zeta. simpl _clients.
  destruct (StdMap.at_ name (_clients n)) as [[[client tr] tn] | ] eqn:Hat;
    [ | exact Hn ].
  destruct Hn as ((Hwp & Hws & Hwc & Hwv) & Hp & Hs & Hc & Hv).
  pose proof (Forall_at _ _ _ _ Hc Hat) as Hnamed.
  destruct (negb (wait_for_service ready_in one_second)).
  - simpl _events_logger. destruct (_events_logger n);
      (split; [ repeat split; assumption | repeat split; assumption ]).
  - split; [ repeat split; simpl; auto using wf_assign | ].
    repeat split; try assumption.
    simpl. apply Forall_assign; [ exact Hc | exact Hnamed ].
Qed.

Lemma after_consistent op n : consistent n -> consistent (after op n).
Proof.
  intros Hn. destruct op; simpl after.
  - apply add_subscriber_consistent, Hn.
  - apply add_publisher_consistent, Hn.
  - apply (add_publisher_consistent topic qos_profile) in Hn. exact Hn.
  - apply add_server_consistent, Hn.
  - apply add_client_consistent, Hn.
  - apply add_periodic_client_consistent, Hn.
  - exact Hn.
  - apply publish_consistent, Hn.
  - apply topic_callback_consistent, Hn.
  - apply request_consistent, Hn.
  - apply response_callback_consistent, Hn.
  - apply service_callback_consistent, Hn.
Qed.

End HistoryFacts.

Module HistoryExtras.
Import PerformanceNodeBase StdMapFacts NodeFacts NodeClaims ConstructionFacts HistoryFacts.

Lemma extends_refl n : extends n n.
Proof.
  split; [ split; reflexivity | ].
  split; [ repeat split; apply incl_refl | ].
  split; [ exists []; symmetry; apply app_nil_r | ].
  split; [ exists []; symmetry; apply app_nil_r | auto ].
Qed.

Lemma extends_trans n1 n2 n3 : extends n1 n2 -> extends n2 n3 -> extends n1 n3.
Proof.
  intros ((Hn & He) & (Hp & Hs & Hc & Hv) & (t1 & Ht) & (m1 & Hm) & Hl)
         ((Hn' & He') & (Hp' & Hs' & Hc' & Hv') & (t2 & Ht') & (m2 & Hm') & Hl').
  split; [ split; congruence | ].
  split; [ repeat split; eapply incl_tran; eassumption | ].
  split; [ exists (t1 ++ t2); rewrite Ht', Ht, app_assoc; reflexivity | ].
  split; [ exists (m1 ++ m2); rewrite Hm', Hm, app_assoc; reflexivity | auto ].
Qed.

(** The shape shared by all cases: the four containers keep their names,
    given what happens to the rest. *)
Lemma extends_intro n n' :
  m_node_name n' = m_node_name n ->
  m_executor_id n' = m_executor_id n ->
  incl (StdMap.keys (_pubs n)) (StdMap.keys (_pubs n')) ->
  incl (StdMap.keys (_subs n)) (StdMap.keys (_subs n')) ->
  incl (StdMap.keys (_clients n)) (StdMap.keys (_clients n')) ->
  incl (StdMap.keys (_servers n)) (StdMap.keys (_servers n')) ->
  (exists timers, _timers n' = _timers n ++ timers) ->
  (exists msgs, published n' = published n ++ msgs) ->
  (_events_logger n <> None -> _events_logger n' <> None) ->
  extends n n'.
Proof. unfold extends. intuition. Qed.

Lemma scan_with_logger_keeps_logger logger h now tr :
  logger <> None -> snd (scan_with_logger logger h now tr) <> None.
Proof.
  unfold scan_with_logger. destruct logger as [log | ]; [ | congruence ].
  intros _. destruct (Tracker.scan h now log tr). discriminate.
Qed.

Ltac same_list := first [ exists []; symmetry; apply app_nil_r | eexists; reflexivity ].
Ltac same_keys :=
  first [ apply incl_refl
        | apply keys_insert_incl
        | simpl; rewrite keys_assign; apply incl_refl ].

Lemma after_extends op n : extends n (after op n).
Proof.
  destruct op; simpl after.
  - apply extends_intro; try reflexivity; try same_keys; try same_list; auto.
  - apply extends_intro; try reflexivity; try same_keys; try same_list; auto.
  - apply extends_intro; try reflexivity; try same_keys; try same_list; auto.
  - apply extends_intro; try reflexivity; try same_keys; try same_list; auto.
  - apply extends_intro; try reflexivity; try same_keys; try same_list; auto.
  - unfold add_periodic_client.
    destruct (StdMap.at_ (service_name service) (_clients (add_client service qos_profile n)))
      as [[[client tracker] tn] | ]; [ destruct (period =? 0)%Z | ].
    + apply extends_intro; try reflexivity; try same_keys; try same_list; auto.
    + apply extends_intro; try reflexivity; try same_keys; try same_list; auto.
      simpl. rewrite keys_assign. apply keys_insert_incl.
    + apply extends_intro; try reflexivity; try same_keys; try same_list; auto.
  - apply extends_intro; try reflexivity; try same_keys; try same_list.
    intros _. discriminate.
  - destruct (StdMap.at_ name (_pubs n)) as [[pub tr] | ] eqn:Hat.
    + rewrite (PeriodicExtras.publish_returns Msg name msg_pass_by size period
                 publish_time end_time n pub tr Hat).
      apply extends_intro; try reflexivity; try same_keys; try same_list; auto.
    + unfold _publish. rewrite Hat. apply extends_refl.
  - unfold _topic_callback.
    destruct (StdMap.at_ name (_subs n)) as [[sub tr] | ]; [ | apply extends_refl ].
    pose proof (scan_with_logger_keeps_logger (_events_logger n) (header msg) now tr)
      as Hlog.
    destruct (scan_with_logger (_events_logger n) (header msg) now tr) as [tr' lg'].
    apply extends_intro; try reflexivity; try same_keys; try same_list; auto.
  - unfold _request.
    destruct (_client_lock n) eqn:Hlock; [ apply extends_refl | ].
    cbv zeta. simpl _clients.
    destruct (StdMap.at_ name (_clients n)) as [[[client tr] tn] | ].
    + destruct (negb (wait_for_service ready_in one_second)).
      * simpl _events_logger. destruct (_events_logger n) eqn:Hlog;
          apply extends_intro; try reflexivity; try same_keys; try same_list;
          simpl; rewrite ?Hlog; auto; intros _; discriminate.
      * apply extends_intro; try reflexivity; try same_keys; try same_list; auto.
    + apply extends_intro; try reflexivity; try same_keys; try same_list; auto.
  - unfold _response_received_callback.
    destruct (StdMap.at_ name (_clients n)) as [[[client tr] tn] | ];
      [ | apply extends_refl ].
    pose proof (scan_with_logger_keeps_logger (_events_logger n) request now tr)
      as Hlog.
    destruct (scan_with_logger (_events_logger n) request now tr) as [tr' lg'].
    apply extends_intro; try reflexivity; try same_keys; try same_list; auto.
  - unfold _service_callback.
    destruct (StdMap.at_ name (_servers n)) as [[server tr] | ];
      [ | apply extends_refl ].
    cbv zeta.
    match goal with
    | |- context [scan_with_logger ?l ?h ?t tr] =>
        pose proof (scan_with_logger_keeps_logger l h t tr) as Hlog;
        destruct (scan_with_logger l h t tr) as [tr' lg']
    end.
    apply extends_intro; try reflexivity; try same_keys; try same_list; auto.
Qed.

Lemma after_all_snoc history op n :
  after_all (history ++ [op]) n = after op (after_all history n).
Proof. unfold after_all. rewrite fold_left_app. reflexivity. Qed.

Lemma after_all_extends history n : extends n (after_all history n).
Proof.
  induction history as [ | op history IH] using rev_ind.
  - apply extends_refl.
  - rewrite after_all_snoc.
    eapply extends_trans; [ exact IH | apply after_extends ].
Qed.

(** X14.  Whatever is done to a node, in whatever order, wiring calls and
    callbacks alike, whether they return or throw: the node keeps its name
    and its executor id; it never loses an endpoint, a timer, or a message it
    has published; once it has an events logger it always has one.  Here for
    any two moments of a history, [earlier] and [later]. *)
Theorem node_never_loses_anything :
  forall (earlier later : list Operation) (n : t),
    extends (after_all earlier n) (after_all (earlier ++ later) n).
Proof.
  intros earlier later n.
  unfold after_all at 2. rewrite fold_left_app.
  apply after_all_extends.
Qed.

(** X15.  In every state a node can reach from its construction, each of
    the four containers holds its names once and in increasing order, and
    every tracker reports the name of the node and the name of the topic or
    service it is stored under: the pairs listed by [all_trackers] and
    [pub_trackers] are labelled with the name their tracker carries. *)
Theorem reachable_node_is_consistent :
  forall (history : list Operation) (name : string) (executor_id : Z),
    let n := after_all history (new name executor_id) in
    consistent n
    /\ m_node_name n = name
    /\ get_executor_id n = executor_id
    /\ forall endpoint tr,
         In (endpoint, tr) (all_trackers n ++ pub_trackers n) ->
         Tracker.node_name tr = name /\ Tracker.topic_srv_name tr = endpoint.
Proof.
  intros history name executor_id n.
  assert (Hcons : consistent n).
  { subst n. induction history as [ | op history IH] using rev_ind.
    - split; [ apply new_well_formed | repeat split; constructor ].
    - rewrite after_all_snoc. apply after_consistent, IH. }
  assert (Hid : m_node_name n = name /\ m_executor_id n = executor_id).
  { destruct (after_all_extends history (new name executor_id)) as (Hid & _).
    exact Hid. }
  destruct Hid as [Hname Hexec].
  split; [ exact Hcons | ]. split; [ exact Hname | ]. split; [ exact Hexec | ].
  intros endpoint tr Hin.
  destruct Hcons as (_ & Hp & Hs & Hc & Hv).
  rewrite all_trackers_eq, pub_trackers_eq in Hin.
  rewrite !in_app_iff, !in_map_iff in Hin.
  rewrite Forall_forall in Hp, Hs, Hc.
  destruct Hin as [[(e & [= <- <-] & He) | (e & [= <- <-] & He)]
                   | (e & [= <- <-] & He)].
  - destruct (Hs e He) as [Hnode Htopic]. split; congruence.
  - destruct (Hc e He) as [Hnode Htopic]. split; congruence.
  - destruct (Hp e He) as [Hnode Htopic]. split; congruence.
Qed.

End HistoryExtras.

Module TimerExtras.
Import PerformanceNodeBase StdMapFacts NodeFacts ConstructionFacts HistoryFacts
       HistoryExtras.

Lemma add_periodic_client_shape service period qos size n :
  exists client tracker tn,
    StdMap.at_ (service_name service) (_clients (add_client service qos n))
    = Some (client, tracker, tn)
    /\ add_periodic_client service period qos size n
       = if (period =? 0)%Z then Undefined (add_client service qos n)
         else
           Returned
             (add_timer period (client_task (service_name service) size)
                (with_clients
                   (StdMap.assign (service_name service)
                      (client,
                       Tracker.set_frequency (float_of_Z (Z.quot 1000000 period)) tracker,
                       tn)
                      (_clients (add_client service qos n)))
                   (add_client service qos n))).
Proof.
  destruct (at_insert_some (service_name service)
              (mkClient (service_name service) qos,
               Tracker.new (m_node_name n) (service_name service)
                 Tracker.DefaultOptions, 0)
              (_clients n)) as ([[client tracker] tn] & Hat).
  assert (Hat' : StdMap.at_ (service_name service) (_clients (add_client service qos n))
                 = Some (client, tracker, tn)) by exact Hat.
  exists client, tracker, tn. split; [ exact Hat' | ].
  unfold add_periodic_client. rewrite Hat'. reflexivity.
Qed.

Lemma after_timers op n : _timers (after op n) = _timers n ++ timers_of op.
Proof.
  destruct op; simpl after; simpl timers_of; try (symmetry; apply app_nil_r);
    try reflexivity.
  - destruct (add_periodic_client_shape service period qos_profile size n)
      as (client & tracker & tn & _ & Hrun).
    rewrite Hrun. destruct (period =? 0)%Z; [ | reflexivity ].
    simpl. symmetry. apply app_nil_r.
  - destruct (StdMap.at_ name (_pubs n)) as [[pub tr] | ] eqn:Hat.
    + rewrite (PeriodicExtras.publish_returns Msg name msg_pass_by size period
                 publish_time end_time n pub tr Hat).
      simpl. symmetry. apply app_nil_r.
    + unfold _publish. rewrite Hat. simpl. symmetry. apply app_nil_r.
  - unfold _topic_callback.
    destruct (StdMap.at_ name (_subs n)) as [[sub tr] | ];
      [ destruct (scan_with_logger (_events_logger n) (header msg) now tr) | ];
      simpl; symmetry; apply app_nil_r.
  - unfold _request.
    destruct (_client_lock n); [ simpl; symmetry; apply app_nil_r | ].
    cbv zeta. simpl _clients.
    destruct (StdMap.at_ name (_clients n)) as [[[client tr] tn] | ];
      [ destruct (negb (wait_for_service ready_in one_second));
        [ simpl _events_logger; destruct (_events_logger n) | ] | ];
      simpl; symmetry; apply app_nil_r.
  - unfold _response_received_callback.
    destruct (StdMap.at_ name (_clients n)) as [[[client tr] tn] | ];
      [ destruct (scan_with_logger (_events_logger n) request now tr) | ];
      simpl; symmetry; apply app_nil_r.
  - unfold _service_callback.
    destruct (StdMap.at_ name (_servers n)) as [[server tr] | ];
      [ cbv zeta;
        match goal with
        | |- context [scan_with_logger ?l ?h ?t tr] =>
            destruct (scan_with_logger l h t tr)
        end | ];
      simpl; symmetry; apply app_nil_r.
Qed.

Lemma task_bound_extends n n' task :
  extends n n' -> task_bound n task -> task_bound n' task.
Proof.
  intros (_ & (Hp & _ & Hc & _) & _) Hb. destruct task; simpl in *; auto.
Qed.

Lemma new_timers_bound op n :
  Forall (fun timer => task_bound (after op n) (timer_callback timer)) (timers_of op).
Proof.
  destruct op; simpl timers_of; try (constructor; fail).
  - constructor; [ | constructor ].
    simpl. apply keys_insert. left. reflexivity.
  - destruct (add_periodic_client_shape service period qos_profile size n)
      as (client & tracker & tn & Hat & Hrun).
    simpl after. rewrite Hrun.
    destruct (period =? 0)%Z; constructor; [ | constructor ].
    simpl. rewrite keys_assign. apply keys_insert. left. reflexivity.
Qed.

End TimerExtras.

Module TimerTheorems.
Import PerformanceNodeBase StdMapFacts NodeFacts ConstructionFacts HistoryFacts
       HistoryExtras TimerExtras.

Lemma timers_of_history history n :
  _timers (after_all history n) = _timers n ++ flat_map timers_of history.
Proof.
  induction history as [ | op history IH] using rev_ind.
  - simpl. symmetry. apply app_nil_r.
  - rewrite after_all_snoc, after_timers, IH, flat_map_app, <- app_assoc.
    simpl. rewrite app_nil_r. reflexivity.
Qed.

Lemma timers_bound_after_all history name executor_id :
  Forall
    (fun timer =>
       task_bound (after_all history (new name executor_id)) (timer_callback timer))
    (_timers (after_all history (new name executor_id))).
Proof.
  induction history as [ | op history IH] using rev_ind.
  - constructor.
  - rewrite after_all_snoc, after_timers. apply Forall_app. split.
    + eapply Forall_impl; [ | exact IH ].
      intros timer. apply task_bound_extends, after_extends.
    + apply new_timers_bound.
Qed.

Lemma request_returns name size ready_in now n :
  StdMap.at_ name (_clients n) <> None ->
  exists n', _request name size ready_in now n = Returned n'.
Proof.
  intros Hat.
  destruct (_client_lock n) eqn:Hlock.
  - exists n. apply ClientClaims.request_while_locked. exact Hlock.
  - destruct (StdMap.at_ name (_clients n)) as [[[client tracker] tn] | ] eqn:Hc;
      [ | congruence ].
    destruct (wait_for_service ready_in one_second) eqn:Hwait.
    + eexists. apply (ClientClaims.request_available _ _ _ _ _ _ _ _ Hlock Hc Hwait).
    + eexists. apply (ClientClaims.request_unavailable _ _ _ _ _ _ _ _ Hlock Hc Hwait).
Qed.

(** X16.  Take a history none of whose calls stopped the process, that is
    without [add_periodic_client] at period 0 (that call divides by zero
    before it reaches [add_timer]).  The timers of the node are exactly those
    registered by the [add_periodic_publisher] and [add_periodic_client] calls
    of the history, in that order, and none of them can throw: whenever a
    timer fires, after whatever else has happened to the node, [_publish]
    finds its publisher and [_request] its client, so the call returns. *)
Theorem timers_never_throw :
  forall (history : list Operation) (name : string) (executor_id : Z)
         (timer : Timer) (ready_in : option Z) (now end_time : Time),
    let n := after_all history (new name executor_id) in
    existsb stops history = false ->
    In timer (_timers n) ->
    _timers n = flat_map timers_of history
    /\ exists n', run_timer (timer_callback timer) ready_in now end_time n = Returned n'.
Proof.
  intros history name executor_id timer ready_in now end_time n _ Hin.
  split; [ apply (timers_of_history history (new name executor_id)) | ].
  pose proof (timers_bound_after_all history name executor_id) as Hbound.
  rewrite Forall_forall in Hbound. specialize (Hbound timer Hin).
  fold n in Hbound.
  destruct (timer_callback timer) as [pname Msg msg_pass_by size period | cname size];
    simpl in Hbound; simpl run_timer.
  - apply at_keys in Hbound.
    destruct (StdMap.at_ pname (_pubs n)) as [[pub tr] | ] eqn:Hat; [ | congruence ].
    eexists. apply (PeriodicExtras.publish_returns _ _ _ _ _ _ _ _ pub tr Hat).
  - apply request_returns. apply at_keys. exact Hbound.
Qed.

Lemma timers_never_throw_witness :
  let history :=
    [AddPeriodicPublisher (mkTopic "missouri" vector_uint8) 10000 PASS_BY_UNIQUE_PTR
       rmw_qos_profile_default 64;
     AddPeriodicClient (mkService "srv") 10000 rmw_qos_profile_default 0;
     Request "nile" 0 None 5%Z;
     Publish vector_uint8 "missouri" PASS_BY_UNIQUE_PTR 64 10000 7%Z 9%Z] in
  let n := after_all history (new "node_1" 0) in
  _timers n = flat_map timers_of history
  /\ exists n',
       run_timer (client_task "srv" 0) (Some 0%Z) 20%Z 21%Z n = Returned n'.
Proof.
  apply (timers_never_throw
           [AddPeriodicPublisher (mkTopic "missouri" vector_uint8) 10000 PASS_BY_UNIQUE_PTR
              rmw_qos_profile_default 64;
            AddPeriodicClient (mkService "srv") 10000 rmw_qos_profile_default 0;
            Request "nile" 0 None 5%Z;
            Publish vector_uint8 "missouri" PASS_BY_UNIQUE_PTR 64 10000 7%Z 9%Z]
           "node_1" 0 (mkTimer 10000 (client_task "srv" 0)) (Some 0%Z) 20%Z 21%Z).
  - reflexivity.
  - right. left. reflexivity.
Defined.

End TimerTheorems.
